(** * NBAShotPrediction: the front end of the shot predictor

    A shallow embedding of [frontend/src/courtCoordinates.ts],
    of the click handler of [frontend/src/ShotPredictor.tsx] and of the
    draw effect of [frontend/src/components/Heatmap.tsx], followed by
    the demo heat-map data, the API client, the prediction panel, the
    player selector, the court drawing and the session statistics of
    [frontend/src/App.tsx].

    A TypeScript [number] is an IEEE 754 binary64 value.  The machine
    reading of the code therefore runs on [spec_float] with the
    operations of the Standard Library's [SpecFloat] at precision 53 and
    maximal exponent 1024 (round to nearest, ties to even).  The closed
    formulas of the mapper and of the heatmap are written once, over an
    interface of arithmetic operations, and are read a second time over
    the rationals, where no rounding takes place. *)

From Stdlib Require Import ZArith QArith Qround Qabs Bool List Ascii String Lia Lqa.
From Stdlib Require Import SpecFloat.
Import ListNotations.

Set Implicit Arguments.

(** ** Numbers *)

(** The interface the formulas are written against: decimal literals,
    the four operations, the comparisons and the [Math] builtins the
    sources call. *)
Class Arith (N : Type) : Type := {
  dec : Z -> Z -> N;            (* the literal n/d, d a power of ten *)
  add : N -> N -> N;
  sub : N -> N -> N;
  mul : N -> N -> N;
  div : N -> N -> N;
  ltb : N -> N -> bool;         (* a < b *)
  leb : N -> N -> bool;         (* a <= b *)
  eqb : N -> N -> bool;         (* a === b *)
  NaN : N;
  isNaN : N -> bool;
  isFinite : N -> bool;
  Math_abs : N -> N;
  Math_max : N -> N -> N;
  Math_min : N -> N -> N;
  Math_floor : N -> N;
  Math_round : N -> N
}.

Declare Scope js_scope.
Delimit Scope js_scope with js.
Infix "+" := add : js_scope.
Infix "-" := sub : js_scope.
Infix "*" := mul : js_scope.
Infix "/" := div : js_scope.
Infix "<?" := ltb : js_scope.
Infix "<=?" := leb : js_scope.
Infix "===" := eqb (at level 70, no associativity) : js_scope.
Notation "a >? b" := (ltb b a) (at level 70, no associativity) : js_scope.
Notation "a >=? b" := (leb b a) (at level 70, no associativity) : js_scope.

(** An integer literal. *)
Definition int {N} `{Arith N} (n : Z) : N := dec n 1.

(** JavaScript truthiness of a number: [0], [-0] and [NaN] are falsy. *)
Definition truthy {N} `{Arith N} (a : N) : bool :=
  negb (isNaN a || eqb a (int 0)).

(** [a || b] on numbers. *)
Definition or_else {N} `{Arith N} (a b : N) : N := if truthy a then a else b.

(** *** binary64 *)
Module Float64.

Abbreviation number := spec_float.

Definition prec : Z := 53.
Definition emax : Z := 1024.

Definition Infinity : number := S754_infinity false.

(** The double nearest to an integer (exact below 2^53). *)
Definition of_Z (n : Z) : number := binary_normalize prec emax n 0 false.

Definition fadd : number -> number -> number := SFadd prec emax.
Definition fsub : number -> number -> number := SFsub prec emax.
Definition fmul : number -> number -> number := SFmul prec emax.
Definition fdiv : number -> number -> number := SFdiv prec emax.
Definition flt : number -> number -> bool := SFltb.
Definition fle : number -> number -> bool := SFleb.
Definition feq : number -> number -> bool := SFeqb.

(** A decimal literal is the double nearest to its value; with both
    [n] and [d] below 2^53 that is the correctly rounded quotient. *)
Definition literal (n d : Z) : number := fdiv (of_Z n) (of_Z d).

Definition is_nan (a : number) : bool :=
  match a with S754_nan => true | _ => false end.

Definition is_finite (a : number) : bool :=
  match a with
  | S754_zero _ | S754_finite _ _ _ => true
  | S754_infinity _ | S754_nan => false
  end.

(** A finite double above zero. *)
Definition positive_finite (a : number) : bool :=
  match a with S754_finite false _ _ => true | _ => false end.

(** The sign bit of a double that is not NaN. *)
Definition has_sign (s : bool) (a : number) : bool :=
  match a with
  | S754_zero s' | S754_infinity s' | S754_finite s' _ _ => Bool.eqb s s'
  | S754_nan => false
  end.

(** The place of a double in the order of [SFcompare]: the comparison
    of two doubles other than NaN is the lexicographic comparison of
    their keys. *)
Definition key (a : number) : Z * Z * Z :=
  match a with
  | S754_infinity true => (-2, 0, 0)
  | S754_finite true m e => (-1, - e, Z.neg m)
  | S754_zero _ | S754_nan => (0, 0, 0)
  | S754_finite false m e => (1, e, Z.pos m)
  | S754_infinity false => (2, 0, 0)
  end%Z.

Definition lt3 (u v : Z * Z * Z) : Prop :=
  let '(u1, u2, u3) := u in
  let '(v1, v2, v3) := v in
  (u1 < v1 \/ (u1 = v1 /\ (u2 < v2 \/ (u2 = v2 /\ u3 < v3))))%Z.

Definition le3 (u v : Z * Z * Z) : Prop :=
  let '(u1, u2, u3) := u in
  let '(v1, v2, v3) := v in
  (u1 < v1 \/ (u1 = v1 /\ (u2 < v2 \/ (u2 = v2 /\ u3 <= v3))))%Z.

(** A double in canonical form, the only form the operations return. *)
Definition wf (a : number) : Prop := valid_binary prec emax a = true.

(** [Math.max]: NaN if either argument is, and [+0] above [-0]. *)
Definition max (a b : number) : number :=
  match SFcompare a b with
  | None => S754_nan
  | Some Lt => b
  | Some Gt => a
  | Some Eq =>
      match a, b with
      | S754_zero sa, S754_zero sb => S754_zero (sa && sb)
      | _, _ => a
      end
  end.

(** [Math.min]: NaN if either argument is, and [-0] below [+0]. *)
Definition min (a b : number) : number :=
  match SFcompare a b with
  | None => S754_nan
  | Some Lt => a
  | Some Gt => b
  | Some Eq =>
      match a, b with
      | S754_zero sa, S754_zero sb => S754_zero (sa || sb)
      | _, _ => a
      end
  end.

(** The signed mantissa of a finite double. *)
Definition signed (s : bool) (m : positive) : Z := cond_Zopp s (Zpos m).

(** [Math.floor]: a double with a non-negative exponent is integral;
    otherwise the value is [signed s m / 2^(-e)] and its floor is an
    arithmetic shift.  A zero result keeps the sign of the argument. *)
Definition floor (a : number) : number :=
  match a with
  | S754_finite s m e =>
      if (0 <=? e)%Z then a
      else let n := Z.shiftr (signed s m) (- e) in
           if (n =? 0)%Z then S754_zero s else of_Z n
  | _ => a
  end.

(** [Math.round]: the integer nearest to the value, ties towards
    [+Infinity], that is [floor (v + 1/2)] computed exactly;
    values in [[-0.5, 0)] give [-0]. *)
Definition round (a : number) : number :=
  match a with
  | S754_finite s m e =>
      if (0 <=? e)%Z then a
      else let n := Z.shiftr (2 * signed s m + 2 ^ (- e)) (1 - e) in
           if (n =? 0)%Z then S754_zero s else of_Z n
  | _ => a
  end.

Definition sqrt : number -> number := SFsqrt prec emax.

#[global] Instance arith : Arith number := {|
  dec := literal;
  add := fadd; sub := fsub; mul := fmul; div := fdiv;
  ltb := flt; leb := fle; eqb := feq;
  NaN := S754_nan; isNaN := is_nan; isFinite := is_finite;
  Math_abs := SFabs;
  Math_max := max; Math_min := min;
  Math_floor := floor; Math_round := round
|}.

End Float64.

(** *** Exact rationals *)
Module Exact.

Definition max (a b : Q) : Q := if Qle_bool a b then b else a.
Definition min (a b : Q) : Q := if Qle_bool a b then a else b.

#[global] Instance arith : Arith Q := {|
  dec := fun n d => (inject_Z n / inject_Z d)%Q;
  add := Qplus; sub := Qminus; mul := Qmult; div := Qdiv;
  ltb := fun a b => negb (Qle_bool b a);
  leb := Qle_bool;
  eqb := Qeq_bool;
  NaN := 0%Q;                 (* never inspected: [isNaN] is constantly false *)
  isNaN := fun _ => false;
  isFinite := fun _ => true;
  Math_abs := Qabs;
  Math_max := max; Math_min := min;
  Math_floor := fun a => inject_Z (Qfloor a);
  Math_round := fun a => inject_Z (Qfloor (a + (1 # 2))%Q)
|}.

End Exact.

(** ** courtCoordinates.ts *)
Module CourtCoordinates.

Record CourtDimensions (N : Type) : Type := {
  width : N;
  height : N;
  courtLengthFeet : N;
  courtWidthFeet : N
}.

Record Position (N : Type) : Type := { x : N; y : N }.

(** [CourtPosition] has the shape of [Position]; TypeScript types are
    structural, so the two interfaces are one record here. *)
Definition CourtPosition : Type -> Type := Position.

Inductive BasketSide : Type := left | right.

Section Mapper.

Context {N : Type} `{Arith N}.
Local Open Scope js_scope.

Definition screenToCourtCoordinates
    (screenPos : Position N) (dimensions : CourtDimensions N) : CourtPosition N :=
  let normalizedX := screenPos.(x) / dimensions.(width) in
  let normalizedY := screenPos.(y) / dimensions.(height) in
  let nbaX := (normalizedY - dec 5 10) * int 500 in
  let nbaY := int 50 + (normalizedX * int 350) in
  {| x := Math_round nbaX; y := Math_round nbaY |}.

Definition courtToScreenCoordinates
    (courtPos : CourtPosition N) (dimensions : CourtDimensions N) : Position N :=
  let scaleX := dimensions.(width) / dimensions.(courtLengthFeet) in
  let scaleY := dimensions.(height) / dimensions.(courtWidthFeet) in
  {| x := courtPos.(x) * scaleX; y := courtPos.(y) * scaleY |}.

Definition isWithinCourtBounds
    (courtPos : CourtPosition N) (dimensions : CourtDimensions N) : bool :=
  (courtPos.(x) >=? int 0) &&
  (courtPos.(x) <=? dimensions.(courtLengthFeet)) &&
  (courtPos.(y) >=? int 0) &&
  (courtPos.(y) <=? dimensions.(courtWidthFeet)).

Definition DEFAULT_COURT_DIMENSIONS : CourtDimensions N :=
  {| width := int 800; height := int 400;
     courtLengthFeet := int 94; courtWidthFeet := int 50 |}.

End Mapper.

(** The descriptors below call [Math.sqrt] and [Math.atan2], which
    leave the rationals: they are read over binary64 only. *)
Section Descriptors.

Import Float64.
Local Open Scope js_scope.

(** [Math.atan2] is implementation-approximated by the language
    standard: the development does not fix its values. *)
Variable Math_atan2 : number -> number -> number.

(** [Math.PI], the double 0x1.921fb54442d18p+1. *)
Definition Math_PI : number := S754_finite false 7074237752028440 (-51).

Definition distanceFromBasket
    (courtPos : CourtPosition number) (basketSide : BasketSide) : number :=
  let basketX : number :=
    match basketSide with left => int 10 | right => int 84 end in
  let basketY : number := int 25 in
  let dx := courtPos.(x) - basketX in
  let dy := courtPos.(y) - basketY in
  sqrt (dx * dx + dy * dy).

Definition angleToBasket
    (courtPos : CourtPosition number) (basketSide : BasketSide) : number :=
  let basketX : number :=
    match basketSide with left => int 10 | right => int 84 end in
  let basketY : number := int 25 in
  let dx := basketX - courtPos.(x) in
  let dy := basketY - courtPos.(y) in
  Math_atan2 dy dx * (int 180 / Math_PI).

Definition getShotZone (courtPos : CourtPosition number) : string :=
  let distanceToBasket := distanceFromBasket courtPos right in
  if distanceToBasket <=? int 8 then "Restricted Area"%string
  else if distanceToBasket <=? int 16 then "Paint"%string
  else if distanceToBasket <=? dec 2375 100 then "Mid-range"%string
  else "Three-point"%string.

End Descriptors.

End CourtCoordinates.

(** ** ShotPredictor.tsx: the click handler *)
Module ShotPredictor.

Import Float64 CourtCoordinates.
Local Open Scope js_scope.

(** The request sent to the prediction collaborator. *)
Record ShotData : Type := {
  LOC_X : number;
  LOC_Y : number;
  SHOT_DISTANCE : number;
  SHOT_TYPE : string;
  SHOT_ZONE_BASIC : string;
  PLAYER_NAME : string
}.

(** [Math.pow(v, 2)], taken as the correctly rounded square. *)
Definition Math_pow2 (v : number) : number := v * v.

(** Distance of an analytics position from the basket at (0, 80),
    in feet. *)
Definition shotDistance (courtPos : CourtPosition number) : number :=
  let basketX : number := int 0 in
  let basketY : number := int 80 in
  sqrt (Math_pow2 ((courtPos.(x) - basketX) / int 10)
        + Math_pow2 ((courtPos.(y) - basketY) / int 10)).

Definition shotType (distance : number) : Z :=
  if distance >? dec 2375 100 then 3%Z else 2%Z.

Definition shotZone (courtPos : CourtPosition number) (distance : number) : string :=
  if distance <=? int 4 then "Restricted Area"%string
  else if distance <=? int 8 then "In The Paint (Non-RA)"%string
  else if distance >? dec 2375 100 then
    if (Math_abs courtPos.(x) >? int 200) && (courtPos.(y) <? int 150) then
      if courtPos.(x) >? int 0 then "Right Corner 3"%string
      else "Left Corner 3"%string
    else "Above the Break 3"%string
  else "Mid-Range"%string.

(** The part of [handleCourtClick] up to the network call: either the
    error message set when no player is selected, or the request. *)
Definition handleCourtClick
    (selectedPlayer : option string) (width height : number)
    (clickX clickY : number) : string + ShotData :=
  match selectedPlayer with
  | None | Some EmptyString => inl "Please select a player first"%string
  | Some player =>
      let courtPos :=
        screenToCourtCoordinates
          {| x := clickX; y := clickY |}
          {| width := width; height := height;
             courtLengthFeet := int 47; courtWidthFeet := int 50 |} in
      let distance := shotDistance courtPos in
      inr {| LOC_X := courtPos.(x);
             LOC_Y := courtPos.(y);
             SHOT_DISTANCE := distance;
             SHOT_TYPE := if (shotType distance =? 3)%Z
                          then "3PT Field Goal"%string
                          else "2PT Field Goal"%string;
             SHOT_ZONE_BASIC := shotZone courtPos distance;
             PLAYER_NAME := player |}
  end.

End ShotPredictor.

(** ** d3-scale and d3-interpolate

    The two scales the heatmap builds, as the library computes them.
    The colour interpolator and the colour parser stay parameters. *)
Module D3.

Section Scales.

Context {N : Type} `{Arith N}.
Local Open Scope js_scope.

(** [d3.scaleSequential(interpolator).domain([x0, x1]).clamp(true)]:
    the factor [k10] fixed by [domain]. *)
Definition k10 (x0 x1 : N) : N :=
  if x0 === x1 then int 0 else int 1 / (x1 - x0).

(** The argument the sequential scale hands to its interpolator. *)
Definition sequentialPosition (x0 x1 v : N) : N :=
  if k10 x0 x1 === int 0 then dec 5 10
  else Math_max (int 0) (Math_min (int 1) ((v - x0) * k10 x0 x1)).

(** The scale itself; [None] is the scale's [unknown] ([undefined]),
    returned for NaN. *)
Definition scaleSequential {A : Type} (interpolator : N -> A)
    (x0 x1 v : N) : option A :=
  if isNaN v then None else Some (interpolator (sequentialPosition x0 x1 v)).

(** [normalize(a, b)] of d3-scale's continuous scales. *)
Definition normalize (a b v : N) : N :=
  let b' := b - a in
  if truthy b' then (v - a) / b'
  else if isNaN b' then NaN else dec 5 10.

(** [clamper(a, b)]. *)
Definition clamper (a b v : N) : N :=
  let '(lo, hi) := if a >? b then (b, a) else (a, b) in
  Math_max lo (Math_min hi v).

(** [d3.interpolateNumber(a, b)]. *)
Definition interpolateNumber (a b t : N) : N := a * (int 1 - t) + b * t.

(** [bimap] for a two-point domain and range. *)
Definition bimap (d0 d1 r0 r1 v : N) : N :=
  if d1 <? d0 then interpolateNumber r1 r0 (normalize d1 d0 v)
  else interpolateNumber r0 r1 (normalize d0 d1 v).

(** [d3.scaleLinear().domain([d0, d1]).range([r0, r1]).clamp(true)]. *)
Definition scaleLinear (d0 d1 r0 r1 v : N) : option N :=
  if isNaN v then None else Some (bimap d0 d1 r0 r1 (clamper d0 d1 v)).

End Scales.

End D3.

(** ** The 2D canvas

    The part of the browser's canvas API the draw effect calls, to the
    resolution the properties below need: which calls throw, and which
    pixels carry ink.  The ink of a pixel is the list of the splats that
    reached it since it was last cleared; the empty list is transparent
    black. *)
Module Canvas2D.

(** The object [d3.color(...).rgb()] returns. *)
Record Rgb (N : Type) : Type := { r : N; g : N; b : N }.

(** One radial-gradient fill: centre, outer radius, colour, and the
    opacity at the centre ([None] when the template string holds
    [undefined]). *)
Record Splat (N : Type) : Type := {
  cx : N;
  cy : N;
  cr : N;
  colour : Rgb N;
  alpha : option N
}.

Import Float64.
Local Open Scope js_scope.

Inductive DOMException : Type := TypeError | IndexSizeError | SyntaxError.

Inductive completion (A : Type) : Type :=
| Normal (a : A)
| Throw (e : DOMException).
Arguments Normal {A} a.
Arguments Throw {A} e.

Definition bind {A B : Type} (c : completion A) (k : A -> completion B) : completion B :=
  match c with
  | Normal a => k a
  | Throw e => Throw e
  end.

Notation "c ;; k" := (bind c (fun _ => k)) (at level 61, right associativity).

Definition Ink : Type := list (Splat number).
Definition Bitmap : Type := Z -> Z -> Ink.

Definition blank : Bitmap := fun _ _ => [].

Record Canvas : Type := {
  cwidth : Z;
  cheight : Z;
  bitmap : Bitmap
}.

(** The integer a bitmap dimension takes when a number is assigned to
    it: the value truncated, and 0 for anything negative or not finite
    (the wrap-around beyond 32 bits is left out). *)
Definition toLength (a : number) : Z :=
  match a with
  | S754_finite false m e =>
      if (0 <=? e)%Z then Z.shiftl (Z.pos m) e else Z.shiftr (Z.pos m) (- e)
  | _ => 0
  end.

(** Assigning [canvas.width] or [canvas.height] resets the bitmap. *)
Definition resize (w h : number) (c : Canvas) : Canvas :=
  {| cwidth := toLength w; cheight := toLength h; bitmap := blank |}.

(** Pixel [i] lies within the span from [lo] to [hi]. *)
Definition inSpan (lo hi : number) (i : Z) : bool :=
  (lo <=? of_Z i) && (of_Z (i + 1) <=? hi).

(** [ctx.clearRect(0, 0, w, h)] under [ctx.setTransform(dpr, 0, 0, dpr, 0, 0)]:
    the pixels inside the scaled rectangle become transparent; a
    non-finite argument makes the call a no-op. *)
Definition clearRect (dpr w h : number) (c : Canvas) : Canvas :=
  if is_finite w && is_finite h then
    let ex := w * dpr in
    let ey := h * dpr in
    {| cwidth := c.(cwidth); cheight := c.(cheight);
       bitmap := fun i j =>
         if inSpan (Math_min (int 0) ex) (Math_max (int 0) ex) i
            && inSpan (Math_min (int 0) ey) (Math_max (int 0) ey) j
         then [] else c.(bitmap) i j |}
  else c.

(** [createRadialGradient]: a non-finite argument is a [TypeError], a
    negative radius an [IndexSizeError]. *)
Definition createRadialGradient (x0 y0 r0 x1 y1 r1 : number) : completion unit :=
  if forallb is_finite [x0; y0; r0; x1; y1; r1] then
    if (r0 <? int 0) || (r1 <? int 0) then Throw IndexSizeError else Normal tt
  else Throw TypeError.

(** The string [rgba(r,g,b,a)] parses as a colour when its four
    components print as numbers. *)
Definition parsesAsColor (c : Rgb number) (a : option number) : bool :=
  is_finite c.(r) && is_finite c.(g) && is_finite c.(b) &&
  match a with Some a' => is_finite a' | None => false end.

(** [addColorStop(offset, rgba(...))]: an offset outside [[0, 1]] is an
    [IndexSizeError], an unparsable colour a [SyntaxError]. *)
Definition addColorStop (offset : number) (c : Rgb number) (a : option number)
    : completion unit :=
  if (int 0 <=? offset) && (offset <=? int 1) then
    if parsesAsColor c a then Normal tt else Throw SyntaxError
  else Throw IndexSizeError.

(** [arc(x, y, r, 0, 2 * Math.PI)]: nothing happens on a non-finite
    argument, a negative radius is an [IndexSizeError]. *)
Definition arc (x0 y0 r0 : number) : completion unit :=
  if forallb is_finite [x0; y0; r0] then
    if r0 <? int 0 then Throw IndexSizeError else Normal tt
  else Normal tt.

(** The calls one splat makes on the offscreen context, whose fills
    accumulate under the [lighter] composite operation. *)
Definition fillSplat (s : Splat number) (drawn : list (Splat number))
    : completion (list (Splat number)) :=
  createRadialGradient s.(cx) s.(cy) (int 0) s.(cx) s.(cy) s.(cr) ;;
  addColorStop (int 0) s.(colour) s.(alpha) ;;
  addColorStop (int 1) s.(colour) (Some (int 0)) ;;
  arc s.(cx) s.(cy) s.(cr) ;;
  Normal (drawn ++ [s]).

(** A splat all of whose canvas calls go through: finite centre and
    radius, and colour stops that parse. *)
Definition paintable (s : Splat number) : bool :=
  is_finite s.(cx) && is_finite s.(cy) && is_finite s.(cr) &&
  parsesAsColor s.(colour) s.(alpha).

(** How far [blur(1.2px)] carries ink: three standard deviations. *)
Definition blurReach : number := dec 36 10.

(** The centre of device pixel [i] in user space. *)
Definition centre (dpr : number) (i : Z) : number :=
  (of_Z i + dec 5 10) / dpr.

(** Splat [s] of a source bitmap of size [offW] x [offH], drawn onto
    the rectangle [dw] x [dh], leaves ink on device pixel [(i, j)]. *)
Definition reaches (dpr offW offH dw dh : number) (i j : Z) (s : Splat number) : bool :=
  let u := centre dpr i * (offW / dw) in
  let v := centre dpr j * (offH / dh) in
  let du := u - s.(cx) in
  let dv := v - s.(cy) in
  let rr := s.(cr) + blurReach in
  (int 0 - blurReach <=? u) && (u <=? offW + blurReach) &&
  (int 0 - blurReach <=? v) && (v <=? offH + blurReach) &&
  (du * du + dv * dv <? rr * rr).

(** [ctx.drawImage(off, 0, 0, dw, dh)] with the blur filter set: every
    pixel gains the ink of the source splats that reach it; a
    non-finite argument makes the call a no-op. *)
Definition drawImage (dpr offW offH dw dh : number) (drawn : list (Splat number))
    (c : Canvas) : Canvas :=
  if is_finite dw && is_finite dh then
    {| cwidth := c.(cwidth); cheight := c.(cheight);
       bitmap := fun i j =>
         c.(bitmap) i j ++ filter (reaches dpr offW offH dw dh i j) drawn |}
  else c.




End Canvas2D.

(** ** Heatmap.tsx *)
Module Heatmap.

Import CourtCoordinates Canvas2D.

Record HeatmapPoint (N : Type) : Type := {
  pt_x : N;
  pt_y : N;
  weight : option N
}.

Inductive CoordinateSpace : Type := screen | court.

Record HeatmapProps (N : Type) : Type := {
  width : N;
  height : N;
  data : list (HeatmapPoint N);
  radius : option N;
  maxOpacity : option N;
  leagueAverage : option N;
  leagueBand : option N;
  coordinateSpace : option CoordinateSpace;
  courtDimensions : option (CourtDimensions N);
  autoResize : option bool
}.

(** A default parameter value, and the [??] operator. *)
Definition orDefault {A : Type} (o : option A) (d : A) : A :=
  match o with Some a => a | None => d end.

Section Formulas.

Context {N : Type} `{Arith N}.
Local Open Scope js_scope.

(** [d3.interpolateRdYlGn], and [d3.color(s)?.rgb()] with [None]
    for a string the parser rejects. *)
Variable interpolateRdYlGn : N -> string.
Variable d3_color : string -> option (Rgb N).

Variable props : HeatmapProps N.

Definition avg : N := orDefault props.(leagueAverage) (dec 45 100).

Definition band : N :=
  Math_max (dec 5 100) (Math_min (dec 4 10) (orDefault props.(leagueBand) (dec 2 10))).

Definition colorScale (v : N) : option string :=
  D3.scaleSequential interpolateRdYlGn (avg - band) (avg + band) v.

Definition emphasisScale (v : N) : option N :=
  D3.scaleLinear (int 0) band (dec 18 100) (orDefault props.(maxOpacity) (dec 85 100)) v.

Definition prob (p : HeatmapPoint N) : N := orDefault p.(weight) avg.

(** The screen position of a point on a surface of the given size. *)
Definition place (drawWidth drawHeight : N) (p : HeatmapPoint N) : Position N :=
  match orDefault props.(coordinateSpace) screen with
  | court =>
      let dims := orDefault props.(courtDimensions) DEFAULT_COURT_DIMENSIONS in
      courtToScreenCoordinates
        {| x := p.(pt_x); y := p.(pt_y) |}
        {| CourtCoordinates.width := drawWidth;
           CourtCoordinates.height := drawHeight;
           courtLengthFeet := dims.(courtLengthFeet);
           courtWidthFeet := dims.(courtWidthFeet) |}
  | screen => {| x := p.(pt_x); y := p.(pt_y) |}
  end.

Definition delta (p : HeatmapPoint N) : N := Math_abs (prob p - avg).

Definition radiusFactor (p : HeatmapPoint N) : N :=
  dec 9 10 + dec 12 10 * (delta p / band).

Definition splatRadius (p : HeatmapPoint N) : N :=
  Math_max (int 8) (orDefault props.(radius) (int 24) * radiusFactor p).

(** The splat of a point; [None] when the loop takes [continue]. *)
Definition splatOf (drawWidth drawHeight : N) (p : HeatmapPoint N) : option (Splat N) :=
  let pos := place drawWidth drawHeight p in
  match colorScale (prob p) with
  | None => None
  | Some t =>
      match d3_color t with
      | None => None
      | Some color =>
          Some {| cx := pos.(x); cy := pos.(y);
                  cr := splatRadius p;
                  colour := color;
                  alpha := emphasisScale (delta p) |}
      end
  end.

End Formulas.

(** What the effect reads from the browser. *)
Record Container (N : Type) : Type := { clientWidth : N; clientHeight : N }.

Record Browser : Type := {
  devicePixelRatio : Float64.number;
  containerRef : option (Container Float64.number);
  getContext : bool;            (* [canvas.getContext('2d')] is not null *)
  offscreenGetContext : bool    (* [off.getContext('2d')] is not null *)
}.

Section Effect.

Import Float64.
Local Open Scope js_scope.

Variable interpolateRdYlGn : number -> string.
Variable d3_color : string -> option (Rgb number).

Variable props : HeatmapProps number.
Variable window : Browser.

(** The [for ... of] loop over [data], on the offscreen context. *)
Fixpoint drawPoints (drawWidth drawHeight : number)
    (points : list (HeatmapPoint number)) (drawn : list (Splat number))
    : completion (list (Splat number)) :=
  match points with
  | [] => Normal drawn
  | p :: rest =>
      match splatOf interpolateRdYlGn d3_color props drawWidth drawHeight p with
      | None => drawPoints drawWidth drawHeight rest drawn
      | Some s =>
          bind (fillSplat s drawn) (drawPoints drawWidth drawHeight rest)
      end
  end.

Definition dpr : number := or_else window.(devicePixelRatio) (int 1).

(** The size the bitmap is given. *)
Definition target : number * number :=
  let '(w, h) :=
    match orDefault props.(autoResize) false, window.(containerRef) with
    | true, Some parent =>
        (or_else parent.(clientWidth) props.(width),
         or_else parent.(clientHeight) props.(height))
    | _, _ => (props.(width), props.(height))
    end in
  (Math_max (int 1) (Math_floor (w * dpr)),
   Math_max (int 1) (Math_floor (h * dpr))).

Definition drawWidth : number :=
  match window.(containerRef) with
  | Some parent => parent.(clientWidth)
  | None => props.(width)
  end.

Definition drawHeight : number :=
  match window.(containerRef) with
  | Some parent => parent.(clientHeight)
  | None => props.(height)
  end.

(** The canvas once sized and cleared. *)
Definition prepare (canvas : Canvas) : Canvas :=
  let '(targetW, targetH) := target in
  let sized :=
    if negb (of_Z canvas.(cwidth) === targetW)
       || negb (of_Z canvas.(cheight) === targetH)
    then resize targetW targetH canvas
    else canvas in
  clearRect dpr drawWidth drawHeight sized.

(** One run of the draw effect on the canvas behind [canvasRef]:
    the canvas afterwards, with the fills made on the offscreen
    canvas, or the exception that escapes. *)
Definition draw (canvasRef : option Canvas)
    : completion (option Canvas * list (Splat number)) :=
  match canvasRef with
  | None => Normal (None, [])
  | Some canvas =>
      if negb window.(getContext) then Normal (Some canvas, [])
      else
        let cleared := prepare canvas in
        let offW := Math_max (int 1) (Math_floor drawWidth) in
        let offH := Math_max (int 1) (Math_floor drawHeight) in
        if negb window.(offscreenGetContext) then Normal (Some cleared, [])
        else
          bind (drawPoints drawWidth drawHeight props.(data) [])
            (fun drawn =>
               Normal (Some (drawImage dpr offW offH drawWidth drawHeight drawn cleared),
                       drawn))
  end.

End Effect.

End Heatmap.

(** ** The configuration of the application

    [ShotPredictor] renders a 500 x 470 surface over a half court of
    47 x 50 feet and hands the heatmap the properties below. *)
Module App.

Import CourtCoordinates Heatmap.

Section Config.

Context {N : Type} `{Arith N}.

Definition surface : CourtDimensions N :=
  {| CourtCoordinates.width := int 500;
     CourtCoordinates.height := int 470;
     courtLengthFeet := int 47;
     courtWidthFeet := int 50 |}.

Definition heatmapProps (playerHeatmap : list (HeatmapPoint N)) : HeatmapProps N :=
  {| Heatmap.width := int 500;
     Heatmap.height := int 470;
     data := playerHeatmap;
     radius := Some (int 28);
     maxOpacity := Some (dec 9 10);
     leagueAverage := Some (dec 45 100);
     leagueBand := Some (dec 2 10);
     coordinateSpace := Some court;
     courtDimensions := Some surface;
     autoResize := Some true |}.


(** A point of known weight. *)
Definition weighted (w : N) : HeatmapPoint N :=
  {| pt_x := int 0; pt_y := int 0; weight := Some w |}.

(** The click of the end-to-end scenario. *)
Definition click : Position N := {| x := int 250; y := int 235 |}.

End Config.

Import Float64 Canvas2D.

(** Stand-ins for d3's colour functions in the runs below: the dark
    green end of the RdYlGn ramp at every point of the scale. *)
Definition green (_ : number) : string := "rgb(0, 104, 55)"%string.
Definition parseGreen (_ : string) : option (Rgb number) :=
  Some {| r := int 0; g := int 104; b := int 55 |}.

(** A heatmap of fixed size over points in pixels, every other
    property left to its default. *)
Definition fixedProps (points : list (HeatmapPoint number)) : HeatmapProps number :=
  {| Heatmap.width := int 500;
     Heatmap.height := int 470;
     data := points;
     radius := None;
     maxOpacity := None;
     leagueAverage := None;
     leagueBand := None;
     coordinateSpace := None;
     courtDimensions := None;
     autoResize := None |}.

(** A browser at pixel ratio 1 whose container measures [w] x [h]. *)
Definition browser (w h : Z) : Browser :=
  {| devicePixelRatio := int 1;
     containerRef := Some {| clientWidth := of_Z w; clientHeight := of_Z h |};
     getContext := true;
     offscreenGetContext := true |}.

(** A fresh 500 x 470 canvas. *)
Definition freshCanvas : Canvas :=
  {| cwidth := 500; cheight := 470; bitmap := blank |}.



(** One shot near the right edge of the surface. *)
Definition edgeShot : HeatmapPoint number :=
  {| pt_x := int 450; pt_y := int 10; weight := Some (dec 7 10) |}.


End App.


(** ** Vocabulary of the specification

    Notions the properties are stated with and the sources do not
    define. *)
Module Spec.

Import CourtCoordinates.

Section Vocabulary.

Context {N : Type} `{Arith N}.
Local Open Scope js_scope.


(** [clamp v lo hi]: [v] brought into the interval from [lo] to [hi]. *)
Definition clamp (v lo hi : N) : N :=
  if v <? lo then lo else if hi <? v then hi else v.

End Vocabulary.


(** The zones of [getShotZone], counted outwards from the basket. *)
Definition zoneRank (zone : string) : nat :=
  if String.eqb zone "Restricted Area" then 0
  else if String.eqb zone "Paint" then 1
  else if String.eqb zone "Mid-range" then 2
  else 3.

(** The computation [c] ends by throwing [e]. *)
Definition raises {A : Type} (c : Canvas2D.completion A) (e : Canvas2D.DOMException) : bool :=
  match c, e with
  | Canvas2D.Throw Canvas2D.TypeError, Canvas2D.TypeError
  | Canvas2D.Throw Canvas2D.IndexSizeError, Canvas2D.IndexSizeError
  | Canvas2D.Throw Canvas2D.SyntaxError, Canvas2D.SyntaxError => true
  | _, _ => false
  end.

(** The splats of the points the loop does not skip, in the order of
    the points. *)
Definition splats
    (interpolateRdYlGn : Float64.number -> string)
    (d3_color : string -> option (Canvas2D.Rgb Float64.number))
    (props : Heatmap.HeatmapProps Float64.number)
    (drawWidth drawHeight : Float64.number)
    (points : list (Heatmap.HeatmapPoint Float64.number))
    : list (Canvas2D.Splat Float64.number) :=
  flat_map
    (fun p =>
       match Heatmap.splatOf interpolateRdYlGn d3_color props drawWidth drawHeight p with
       | Some s => [s]
       | None => []
       end)
    points.

(** [props] with another [courtDimensions]. *)
Definition withCourtDimensions {N : Type}
    (props : Heatmap.HeatmapProps N) (dims : option (CourtDimensions N))
    : Heatmap.HeatmapProps N :=
  {| Heatmap.width := props.(Heatmap.width);
     Heatmap.height := props.(Heatmap.height);
     Heatmap.data := props.(Heatmap.data);
     Heatmap.radius := props.(Heatmap.radius);
     Heatmap.maxOpacity := props.(Heatmap.maxOpacity);
     Heatmap.leagueAverage := props.(Heatmap.leagueAverage);
     Heatmap.leagueBand := props.(Heatmap.leagueBand);
     Heatmap.coordinateSpace := props.(Heatmap.coordinateSpace);
     Heatmap.courtDimensions := dims;
     Heatmap.autoResize := props.(Heatmap.autoResize) |}.

(** A heat-map point on the half court of 47 x 50 feet, of a weight
    from 0.2 to 0.7. *)
Definition onHalfCourt (p : Heatmap.HeatmapPoint Float64.number) : Prop :=
  isWithinCourtBounds {| x := p.(Heatmap.pt_x); y := p.(Heatmap.pt_y) |}
    (App.surface (N:=Float64.number)) = true
  /\ exists w, p.(Heatmap.weight) = Some w
               /\ Float64.fle (dec 2 10) w = true /\ Float64.fle w (dec 7 10) = true.

(** The grades of [getPerformanceGrade], counted upwards. *)
Definition gradeRank (grade : string) : nat :=
  if String.eqb grade "A+" then 5
  else if String.eqb grade "A" then 4
  else if String.eqb grade "B+" then 3
  else if String.eqb grade "B" then 2
  else if String.eqb grade "C" then 1
  else 0.

(** The makes at the head of a list of outcomes. *)
Fixpoint leadingMakes (shots : list bool) : Z :=
  match shots with
  | true :: rest => 1 + leadingMakes rest
  | _ => 0
  end.

(** The makes in a row a session ends with, its outcomes in the order
    they were played. *)
Definition trailingMakes (shots : list bool) : Z := leadingMakes (rev shots).

(** The longest run of makes in a row. *)
Fixpoint longestRun (shots : list bool) : Z :=
  match shots with
  | [] => 0
  | _ :: rest => Z.max (leadingMakes shots) (longestRun rest)
  end.

(** The number of makes. *)
Definition makes (shots : list bool) : Z :=
  Z.of_nat (List.length (filter (fun made => made) shots)).

End Spec.

(** ** ShotPredictor.tsx: the demo heat-map data *)
Module PlayerHeatmap.

Import Heatmap.

Section Clusters.

Context {N : Type} `{Arith N}.
Local Open Scope js_scope.

(** [Math.random()]: the successive draws are the values of a stream,
    read at a position that advances by one with every call. *)
Variable Math_random : nat -> N.

(** The array being filled, with the position in the stream of draws. *)
Definition Filling : Type := (list (HeatmapPoint N) * nat)%type.

(** One turn of the loop of [addCluster]: the point pushed, from the
    three draws that start at position [k]. *)
Definition clusterPoint
    (centerX centerY spreadX spreadY baseProb variance : N) (k : nat)
    : HeatmapPoint N :=
  let x := centerX + (Math_random k * int 2 - int 1) * spreadX in
  let y := centerY + (Math_random (k + 1) * int 2 - int 1) * spreadY in
  let weight :=
    Math_max (dec 2 10)
      (Math_min (dec 7 10)
         (baseProb + (Math_random (k + 2) * int 2 - int 1) * variance)) in
  let cx := Math_max (int 0) (Math_min (int 47) x) in
  let cy := Math_max (int 0) (Math_min (int 50) y) in
  {| pt_x := cx; pt_y := cy; weight := Some weight |}.

(** [for (let i = 0; i < count; i++)] with [turns] turns left. *)
Fixpoint addClusterLoop
    (centerX centerY spreadX spreadY baseProb variance : N)
    (turns : nat) (arr : Filling) : Filling :=
  match turns with
  | O => arr
  | S turns' =>
      let '(points, k) := arr in
      addClusterLoop centerX centerY spreadX spreadY baseProb variance turns'
        (points ++ [clusterPoint centerX centerY spreadX spreadY baseProb variance k],
         (k + 3)%nat)
  end.

(** [addCluster(arr, centerX, centerY, spreadX, spreadY, count, baseProb,
    variance)]; every call passes an integer [count], for which the
    loop takes [count] turns, and none when [count] is negative. *)
Definition addCluster
    (arr : Filling) (centerX centerY spreadX spreadY : N) (count : Z)
    (baseProb variance : N) : Filling :=
  addClusterLoop centerX centerY spreadX spreadY baseProb variance
    (Z.to_nat count) arr.

(** The [useMemo] body: the clusters of the selected player. *)
Definition playerHeatmap (selectedPlayer : option string) : list (HeatmapPoint N) :=
  let pts : Filling := ([], O) in
  let hoopX : N := int 10 in
  let centerY : N := int 25 in
  let curry :=
    let pts := addCluster pts (hoopX + int 24) (centerY - int 15) (int 6) (int 5)
                 120 (dec 52 100) (dec 6 100) in
    let pts := addCluster pts (hoopX + int 26) (centerY + int 15) (int 6) (int 5)
                 120 (dec 54 100) (dec 6 100) in
    let pts := addCluster pts (hoopX + int 22) centerY (int 7) (int 4)
                 120 (dec 50 100) (dec 5 100) in
    addCluster pts (hoopX + int 10) centerY (int 10) (int 10)
      60 (dec 40 100) (dec 6 100) in
  let lebron :=
    let pts := addCluster pts (hoopX + int 2) centerY (int 4) (int 6)
                 160 (dec 65 100) (dec 5 100) in
    let pts := addCluster pts (hoopX + int 10) (centerY + int 8) (int 6) (int 4)
                 100 (dec 50 100) (dec 6 100) in
    let pts := addCluster pts (hoopX + int 10) (centerY - int 8) (int 6) (int 4)
                 100 (dec 50 100) (dec 6 100) in
    addCluster pts (hoopX + int 18) centerY (int 8) (int 6)
      60 (dec 38 100) (dec 5 100) in
  let durant :=
    let pts := addCluster pts (hoopX + int 16) (centerY + int 8) (int 5) (int 4)
                 140 (dec 55 100) (dec 5 100) in
    let pts := addCluster pts (hoopX + int 16) (centerY - int 8) (int 5) (int 4)
                 140 (dec 55 100) (dec 5 100) in
    let pts := addCluster pts (hoopX + int 24) centerY (int 7) (int 5)
                 100 (dec 44 100) (dec 5 100) in
    addCluster pts (hoopX + int 6) centerY (int 5) (int 5)
      60 (dec 50 100) (dec 5 100) in
  let default :=
    let pts := addCluster pts (hoopX + int 4) centerY (int 6) (int 8)
                 140 (dec 58 100) (dec 5 100) in
    let pts := addCluster pts (hoopX + int 18) centerY (int 10) (int 10)
                 120 (dec 42 100) (dec 6 100) in
    addCluster pts (hoopX + int 26) centerY (int 10) (int 12)
      100 (dec 36 100) (dec 6 100) in
  fst match selectedPlayer with
      | Some player =>
          if String.eqb player "Stephen Curry" then curry
          else if String.eqb player "LeBron James" then lebron
          else if String.eqb player "Kevin Durant" then durant
          else default
      | None => default
      end.

End Clusters.

End PlayerHeatmap.

(** ** StatsPanel.tsx and Header.tsx: the session statistics *)
Module StatsPanel.

Record SessionStats (N : Type) : Type := {
  totalShots : N;
  madeShots : N;
  bestStreak : N;
  currentStreak : N;
  favoritePlayer : string;
  favoriteZone : string
}.

(** The object [getPerformanceGrade] returns. *)
Record Performance : Type := {
  grade : string;
  color : string;
  text : string
}.

Section Panel.

Context {N : Type} `{Arith N}.
Local Open Scope js_scope.

(** The percentage the header and the panel both show. *)
Definition shootingPercentage (stats : SessionStats N) : N :=
  if stats.(totalShots) >? int 0
  then Math_round (stats.(madeShots) / stats.(totalShots) * int 100)
  else int 0.

Definition missedShots (stats : SessionStats N) : N :=
  stats.(totalShots) - stats.(madeShots).

Definition getPerformanceGrade (percentage : N) : Performance :=
  if percentage >=? int 80
  then {| grade := "A+"; color := "#00ff00"; text := "LEGENDARY" |}
  else if percentage >=? int 70
  then {| grade := "A"; color := "#32cd32"; text := "ELITE" |}
  else if percentage >=? int 60
  then {| grade := "B+"; color := "#ffd700"; text := "GREAT" |}
  else if percentage >=? int 50
  then {| grade := "B"; color := "#ff8c00"; text := "SOLID" |}
  else if percentage >=? int 40
  then {| grade := "C"; color := "#ff6b35"; text := "DECENT" |}
  else {| grade := "D"; color := "#ff4444"; text := "NEEDS WORK" |}.

(** The line of the panel's footer; each text follows an emoji in the
    source, left out here. *)
Definition motivationalText (shootingPercentage : N) : string :=
  if shootingPercentage >=? int 70 then "ON FIRE!"
  else if shootingPercentage >=? int 50 then "KEEP GRINDING!"
  else "ROOM TO IMPROVE!".

End Panel.

End StatsPanel.

(** ** api/client.ts *)
Module ApiClient.

Import Float64.

Record ComparableShots : Type := {
  league_avg : number;
  attempts : number;
  makes : number
}.

Record ShotInfo : Type := {
  distance : number;
  shot_type : string;
  zone : string;
  difficulty : string;
  comparable_shots : ComparableShots;
  league_average : number
}.

Record PlayerStats : Type := {
  fg_percentage : number;
  three_point_percentage : number;
  free_throw_percentage : number;
  effective_fg_percentage : number;
  true_shooting_percentage : number;
  games_played : number;
  minutes_per_game : number;
  field_goals_made : number;
  field_goals_attempted : number
}.

Record ShotPrediction : Type := {
  shot_made : bool;
  probability : number;
  confidence : string;
  shot_info : ShotInfo;
  player_stats : option PlayerStats
}.

Record Player : Type := {
  id : Z;
  name : string;
  team : option string;
  position : option string;
  jersey_number : option Z;
  height : option string;
  weight : option Z;
  years_pro : option Z
}.

Record PlayersResponse : Type := {
  players : list Player;
  total : Z;
  page : Z;
  per_page : Z
}.

(** What [fetch] resolves to: the [ok] flag, the status, and the value
    [response.json()] resolves to, [None] when the body does not parse. *)
Record Response (A : Type) : Type := {
  ok : bool;
  status : Z;
  json : option A
}.

(** The ways a call of the client rejects: [fetch] itself rejects,
    the [Error] thrown for a status that is not ok, or [json()] rejects. *)
Inductive Rejection : Type :=
| FetchRejected
| HttpError (status : Z)
| BodyRejected.

(** The body the two methods share; [fetched] is [None] when [fetch]
    rejects. *)
Definition request {A : Type} (fetched : option (Response A)) : Rejection + A :=
  match fetched with
  | None => inl FetchRejected
  | Some response =>
      if negb response.(ok) then inl (HttpError response.(status))
      else match response.(json) with
           | Some value => inr value
           | None => inl BodyRejected
           end
  end.

Definition predictShot (fetched : option (Response ShotPrediction))
    : Rejection + ShotPrediction := request fetched.

Definition getPlayers (fetched : option (Response PlayersResponse))
    : Rejection + PlayersResponse := request fetched.

End ApiClient.

(** ** ShotPredictor.tsx: the click handler to its end *)
Module PredictionFlow.

Import Float64 ShotPredictor ApiClient.

Record ShotLocation : Type := {
  loc_x : number;
  loc_y : number;
  loc_distance : number
}.

(** The four state variables of the component. *)
Record State : Type := {
  prediction : option ShotPrediction;
  loading : bool;
  error : option string;
  shotLocation : option ShotLocation
}.

Definition initialState : State :=
  {| prediction := None; loading := false; error := None; shotLocation := None |}.

Definition located (shotData : ShotData) : option ShotLocation :=
  Some {| loc_x := shotData.(LOC_X); loc_y := shotData.(LOC_Y);
          loc_distance := shotData.(SHOT_DISTANCE) |}.

(** The state while the request is in flight. *)
Definition pending
    (selectedPlayer : option string) (width height clickX clickY : number)
    (st : State) : State :=
  match handleCourtClick selectedPlayer width height clickX clickY with
  | inl message =>
      {| prediction := st.(prediction); loading := st.(loading);
         error := Some message; shotLocation := st.(shotLocation) |}
  | inr shotData =>
      {| prediction := st.(prediction); loading := true;
         error := None; shotLocation := located shotData |}
  end.

(** The state once the handler has run to its end, with the state [S]
    of the parent the [onPrediction] callback acts on; [fetched] is
    what the request met. *)
Definition handleCourtClick_settled {S : Type}
    (selectedPlayer : option string) (width height : number)
    (onPrediction : option (bool -> string -> string -> S -> S))
    (clickX clickY : number)
    (fetched : option (Response ShotPrediction))
    (st : State) (parent : S) : State * S :=
  match handleCourtClick selectedPlayer width height clickX clickY with
  | inl message =>
      ({| prediction := st.(prediction); loading := st.(loading);
          error := Some message; shotLocation := st.(shotLocation) |},
       parent)
  | inr shotData =>
      match predictShot fetched with
      | inr result =>
          ({| prediction := Some result; loading := false;
              error := None; shotLocation := located shotData |},
           match onPrediction with
           | Some callback =>
               callback result.(shot_made) shotData.(PLAYER_NAME)
                 shotData.(SHOT_ZONE_BASIC) parent
           | None => parent
           end)
      | inl _ =>
          ({| prediction := st.(prediction); loading := false;
              error := Some "Failed to predict shot. Please try again."%string;
              shotLocation := located shotData |},
           parent)
      end
  end.

End PredictionFlow.

(** ** PredictionDisplay.tsx *)
Module PredictionDisplay.

Import Float64 ApiClient.
Local Open Scope js_scope.

(** The panel the component returns. *)
Inductive Panel : Type :=
| Calculating
| PredictionFailed (message : string)
| ReadyToShoot
| Result (prediction : ShotPrediction).

(** The chain of early returns; an empty [error] string is falsy. *)
Definition PredictionDisplay
    (prediction : option ShotPrediction) (loading : bool) (error : option string)
    : Panel :=
  if loading then Calculating
  else match error with
       | Some (String c message) => PredictionFailed (String c message)
       | _ =>
           match prediction with
           | None => ReadyToShoot
           | Some p => Result p
           end
       end.

Section Numbers.

Context {N : Type} `{Arith N}.



End Numbers.

End PredictionDisplay.

(** ** PlayerSelector.tsx

    A JavaScript string is a sequence of UTF-16 code units.  The
    functions of the selector are read over any type of units with an
    equality test and a unit for the space. *)
Module PlayerSelector.

Section Units.

Variable Unit : Type.
Variable unit_eqb : Unit -> Unit -> bool.
Variable space : Unit.

Definition Str : Type := list Unit.

Fixpoint str_eqb (s t : Str) : bool :=
  match s, t with
  | [], [] => true
  | c :: s', d :: t' => unit_eqb c d && str_eqb s' t'
  | _, _ => false
  end.

(** [name.split(' ')]. *)
Fixpoint split (name : Str) : list Str :=
  match name with
  | [] => [[]]
  | c :: rest =>
      if unit_eqb c space then [] :: split rest
      else match split rest with
           | word :: words => (c :: word) :: words
           | [] => [[c]]
           end
  end.

(** [parts.join('')], in which [undefined] counts as the empty string. *)
Definition join (parts : list (option Unit)) : Str :=
  flat_map (fun part => match part with Some c => [c] | None => [] end) parts.

(** [name.split(' ').map(n => n[0]).join('')]. *)
Definition getPlayerInitials (name : Str) : Str :=
  join (map (@hd_error Unit) (split name)).

(** [t] begins [s]. *)
Fixpoint startsWith (s t : Str) : bool :=
  match t, s with
  | [], _ => true
  | d :: t', c :: s' => unit_eqb c d && startsWith s' t'
  | _ :: _, [] => false
  end.

(** [s.includes(t)]. *)
Fixpoint includes (s t : Str) : bool :=
  startsWith s t ||
  match s with
  | [] => false
  | _ :: s' => includes s' t
  end.

(** [String.prototype.toLowerCase], whose table of case pairs the
    development does not fix. *)
Variable toLowerCase : Str -> Str.

Definition filteredPlayers (players : list Str) (searchTerm : Str) : list Str :=
  filter (fun player => includes (toLowerCase player) (toLowerCase searchTerm))
    players.

(** [players.indexOf(player)]. *)
Fixpoint indexOf (players : list Str) (player : Str) : Z :=
  match players with
  | [] => -1
  | first :: rest =>
      if str_eqb first player then 0
      else let i := indexOf rest player in
           if (i <? 0)%Z then -1 else (i + 1)%Z
  end.

Definition colors : list string :=
  ["#ff6b35"; "#f7931e"; "#32cd32"; "#4169e1";
   "#ff1493"; "#00ced1"; "#ffd700"; "#ff4500"]%string.

(** [array[index]] for an integer index; [None] is [undefined]. *)
Definition at_index {A : Type} (array : list A) (index : Z) : option A :=
  if (index <? 0)%Z then None else nth_error array (Z.to_nat index).

(** [%] keeps the sign of the dividend, as [Z.rem] does. *)
Definition getPlayerTeamColor (players : list Str) (player : Str) : option string :=
  let index := Z.rem (indexOf players player) (Z.of_nat (List.length colors)) in
  at_index colors index.

End Units.

End PlayerSelector.

(** ** BasketballCourt.tsx *)
Module BasketballCourt.






Section Drawing.

Context {N : Type} `{Arith N}.
Local Open Scope js_scope.

Variable width height : N.

Definition courtLength : N := int 47.
Definition courtWidth : N := int 50.

Definition scaleX : N := width / courtLength.
Definition scaleY : N := height / courtWidth.





End Drawing.

End BasketballCourt.

(** ** App.tsx *)
Module AppComponent.

Import Float64 ApiClient StatsPanel.

Section Stats.

Context {N : Type} `{Arith N}.
Local Open Scope js_scope.

Definition initialStats : SessionStats N :=
  {| totalShots := int 0; madeShots := int 0;
     bestStreak := int 0; currentStreak := int 0;
     favoritePlayer := ""; favoriteZone := "" |}.

Definition updateSessionStats
    (shotMade : bool) (player zone : string) (prev : SessionStats N)
    : SessionStats N :=
  {| totalShots := prev.(totalShots) + int 1;
     madeShots := prev.(madeShots) + (if shotMade then int 1 else int 0);
     currentStreak := if shotMade then prev.(currentStreak) + int 1 else int 0;
     bestStreak :=
       if shotMade
       then Math_max prev.(bestStreak) (prev.(currentStreak) + int 1)
       else prev.(bestStreak);
     favoritePlayer := player;
     favoriteZone := zone |}.

(** A session: the predictions reported to [onPrediction], in order,
    each with the outcome, the player and the zone. *)
Definition session (reports : list (bool * string * string)) : SessionStats N :=
  fold_left
    (fun prev '(shotMade, player, zone) => updateSessionStats shotMade player zone prev)
    reports initialStats.

End Stats.

Record AppState : Type := {
  players : list Player;
  selectedPlayer : option string;
  loading : bool;
  error : option string;
  showStats : bool;
  sessionStats : SessionStats number
}.

Definition initialState : AppState :=
  {| players := []; selectedPlayer := None; loading := true; error := None;
     showStats := false; sessionStats := initialStats |}.

(** The players of the [catch] branch. *)
Definition offlinePlayers : list Player :=
  [ {| id := 1; name := "LeBron James"; team := Some "Los Angeles Lakers";
       position := Some "SF";
       jersey_number := None; height := None; weight := None;
       years_pro := None |};
    {| id := 2; name := "Stephen Curry"; team := Some "Golden State Warriors";
       position := Some "PG";
       jersey_number := None; height := None; weight := None;
       years_pro := None |};
    {| id := 3; name := "Kevin Durant"; team := Some "Phoenix Suns";
       position := Some "SF";
       jersey_number := None; height := None; weight := None;
       years_pro := None |};
    {| id := 4; name := "Jayson Tatum"; team := Some "Boston Celtics";
       position := Some "SF";
       jersey_number := None; height := None; weight := None;
       years_pro := None |};
    {| id := 5; name := "Luka Doncic"; team := Some "Dallas Mavericks";
       position := Some "PG";
       jersey_number := None; height := None; weight := None;
       years_pro := None |};
    {| id := 6; name := "Giannis Antetokounmpo"; team := Some "Milwaukee Bucks";
       position := Some "PF";
       jersey_number := None; height := None; weight := None;
       years_pro := None |};
    {| id := 7; name := "Ja Morant"; team := Some "Memphis Grizzlies";
       position := Some "PG";
       jersey_number := None; height := None; weight := None;
       years_pro := None |};
    {| id := 8; name := "Jimmy Butler"; team := Some "Miami Heat";
       position := Some "SF";
       jersey_number := None; height := None; weight := None;
       years_pro := None |} ]%string.

(** [fetchPlayers] run to its end; [fetched] is what the request met. *)
Definition fetchPlayers (fetched : option (Response PlayersResponse))
    (st : AppState) : AppState :=
  match getPlayers fetched with
  | inr response =>
      {| players := response.(ApiClient.players);
         selectedPlayer :=
           match response.(ApiClient.players) with
           | first :: _ => Some first.(name)
           | [] => st.(selectedPlayer)
           end;
         loading := false;
         error := st.(error);
         showStats := st.(showStats);
         sessionStats := st.(sessionStats) |}
  | inl _ =>
      {| players := offlinePlayers;
         selectedPlayer := Some "LeBron James"%string;
         loading := false;
         error := Some "Failed to fetch players - using offline data"%string;
         showStats := st.(showStats);
         sessionStats := st.(sessionStats) |}
  end.

Definition playerNames (st : AppState) : list string :=
  map name st.(players).

End AppComponent.

(** * Properties *)

Import Float64 CourtCoordinates.

Unset Implicit Arguments.

(** ** Order facts on binary64 *)

Lemma SFcompare_antisym (a b : number) :
  SFcompare b a = option_map CompOpp (SFcompare a b).
Proof.
  destruct a as [sa|sa| |sa ma ea], b as [sb|sb| |sb mb eb]; simpl;
    try destruct sa; try destruct sb; simpl; try reflexivity.
  all: rewrite (Z.compare_antisym ea eb);
    destruct (ea ?= eb)%Z; simpl; try reflexivity;
    rewrite (Pos.compare_cont_antisym ma mb Eq); simpl;
    rewrite ?CompOpp_involutive; reflexivity.
Qed.

Lemma SFcompare_refl (a : number) :
  is_nan a = false -> SFcompare a a = Some Eq.
Proof.
  destruct a as [s|s| |s m e]; simpl; try discriminate; intros _;
    destruct s; try reflexivity;
    rewrite Z.compare_refl; fold (Pos.compare m m);
    now rewrite Pos.compare_refl.
Qed.

Lemma flt_not_fle (a b : number) : flt a b = true -> fle b a = false.
Proof.
  unfold flt, fle, SFltb, SFleb. rewrite (SFcompare_antisym a b).
  destruct (SFcompare a b) as [[]|]; simpl; congruence.
Qed.

Lemma fle_not_flt (a b : number) : fle a b = true -> flt b a = false.
Proof.
  unfold flt, fle, SFltb, SFleb. rewrite (SFcompare_antisym a b).
  destruct (SFcompare a b) as [[]|]; simpl; congruence.
Qed.

(** Away from NaN the order is total. *)
Lemma not_fle_flt (a b : number) :
  is_nan a = false -> is_nan b = false -> fle a b = false -> flt b a = true.
Proof.
  unfold flt, fle, SFltb, SFleb. rewrite (SFcompare_antisym a b).
  destruct a, b; simpl; try discriminate; intros _ _;
    match goal with |- context [match ?c with _ => _ end] => destruct c end;
    simpl; congruence.
Qed.

Lemma fle_refl (a : number) : is_nan a = false -> fle a a = true.
Proof. intros Ha. unfold fle, SFleb. now rewrite SFcompare_refl. Qed.

Lemma fle_is_number (a b : number) :
  fle a b = true -> is_nan a = false /\ is_nan b = false.
Proof. destruct a, b; simpl; try discriminate; auto. Qed.

Lemma flt_is_number (a b : number) :
  flt a b = true -> is_nan a = false /\ is_nan b = false.
Proof. destruct a, b; simpl; try discriminate; auto. Qed.

(** ** Arithmetic facts on binary64 *)



Lemma wf_finite (s : bool) (m : positive) (e : Z) :
  wf (S754_finite s m e) ->
  fexp prec emax (Z.pos (digits2_pos m) + e) = e /\ (e <= emax - prec)%Z.
Proof.
  unfold wf, valid_binary, bounded, canonical_mantissa.
  rewrite andb_true_iff, Z.eqb_eq, Z.leb_le. tauto.
Qed.



Lemma fsub_zero (a : number) : fsub a (int 0) = a.
Proof. destruct a as [[]|[]| |s m e]; reflexivity. Qed.

Lemma fsub_self (a : number) : is_finite a = true -> fsub a a = S754_zero false.
Proof.
  destruct a as [[]|s| |s m e]; try discriminate; intros _; try reflexivity.
  unfold fsub, SFsub. rewrite Z.sub_diag. reflexivity.
Qed.

(** ** The order through keys *)

(** Case analysis on the integer comparisons [SFcompare] makes. *)
Ltac compare_cases :=
  repeat match goal with
  | |- context [(?a ?= ?b)%Z] => destruct (Z.compare_spec a b)
  | |- context [Pos.compare_cont Eq ?a ?b] =>
      change (Pos.compare_cont Eq a b) with (Pos.compare a b);
      destruct (Pos.compare_spec a b)
  end.

Lemma flt_iff (a b : number) :
  is_nan a = false -> is_nan b = false ->
  (flt a b = true <-> lt3 (key a) (key b)).
Proof.
  unfold flt, SFltb.
  destruct a as [sa|sa| |sa ma ea], b as [sb|sb| |sb mb eb];
    try discriminate; intros _ _;
    try destruct sa; try destruct sb; cbn [SFcompare key lt3];
    compare_cases; cbn [CompOpp];
    (split; [first [discriminate|intros _; lia]|first [reflexivity|lia]]).
Qed.

Lemma fle_iff (a b : number) :
  is_nan a = false -> is_nan b = false ->
  (fle a b = true <-> le3 (key a) (key b)).
Proof.
  unfold fle, SFleb.
  destruct a as [sa|sa| |sa ma ea], b as [sb|sb| |sb mb eb];
    try discriminate; intros _ _;
    try destruct sa; try destruct sb; cbn [SFcompare key le3];
    compare_cases; cbn [CompOpp];
    (split; [first [discriminate|intros _; lia]|first [reflexivity|lia]]).
Qed.

Lemma lt3_trans (u v w : Z * Z * Z) : lt3 u v -> lt3 v w -> lt3 u w.
Proof. destruct u as [[? ?] ?], v as [[? ?] ?], w as [[? ?] ?]; cbn; lia. Qed.

Lemma lt3_irrefl (u : Z * Z * Z) : ~ lt3 u u.
Proof. destruct u as [[? ?] ?]; cbn; lia. Qed.

Lemma le3_lt3_trans (u v w : Z * Z * Z) : le3 u v -> lt3 v w -> lt3 u w.
Proof. destruct u as [[? ?] ?], v as [[? ?] ?], w as [[? ?] ?]; cbn; lia. Qed.

Lemma lt3_le3_trans (u v w : Z * Z * Z) : lt3 u v -> le3 v w -> lt3 u w.
Proof. destruct u as [[? ?] ?], v as [[? ?] ?], w as [[? ?] ?]; cbn; lia. Qed.

Lemma fle_flt_trans (a b c : number) :
  fle a b = true -> flt b c = true -> flt a c = true.
Proof.
  intros Hab Hbc.
  destruct (fle_is_number _ _ Hab) as [Ha Hb].
  destruct (flt_is_number _ _ Hbc) as [_ Hc].
  apply flt_iff; auto. apply fle_iff in Hab; auto. apply flt_iff in Hbc; auto.
  eauto using le3_lt3_trans.
Qed.

Lemma flt_fle_trans (a b c : number) :
  flt a b = true -> fle b c = true -> flt a c = true.
Proof.
  intros Hab Hbc.
  destruct (flt_is_number _ _ Hab) as [Ha Hb].
  destruct (fle_is_number _ _ Hbc) as [_ Hc].
  apply flt_iff; auto. apply flt_iff in Hab; auto. apply fle_iff in Hbc; auto.
  eauto using lt3_le3_trans.
Qed.

Lemma flt_irrefl (a : number) : flt a a = false.
Proof.
  destruct (flt a a) eqn:E; [|reflexivity].
  destruct (flt_is_number _ _ E) as [Ha _].
  apply flt_iff in E; auto. now apply lt3_irrefl in E.
Qed.

Lemma flt_fle (a b : number) : flt a b = true -> fle a b = true.
Proof.
  unfold flt, fle, SFltb, SFleb. destruct (SFcompare a b) as [[]|]; congruence.
Qed.

(** ** Rounding never invents a NaN *)

Lemma iter_pos_invariant {A : Type} (P : A -> Prop) (f : A -> A) :
  (forall a, P a -> P (f a)) -> forall n a, P a -> P (iter_pos f n a).
Proof.
  intros Hf. induction n as [n IH|n IH|]; intros a Ha; cbn; auto.
Qed.

Lemma shr_1_nonneg (mrs : shr_record) :
  (0 <= shr_m mrs)%Z -> (0 <= shr_m (shr_1 mrs))%Z.
Proof.
  destruct mrs as [[|[p|p|]|p] r s]; cbn; lia.
Qed.

Lemma shr_nonneg (mrs : shr_record) (e n : Z) :
  (0 <= shr_m mrs)%Z -> (0 <= shr_m (fst (shr mrs e n)))%Z.
Proof.
  intros H. destruct n as [|p|p]; cbn; auto.
  apply (iter_pos_invariant (fun r => (0 <= shr_m r)%Z)); auto using shr_1_nonneg.
Qed.

Lemma shr_fexp_nonneg (m e : Z) (l : location) :
  (0 <= m)%Z -> (0 <= shr_m (fst (shr_fexp prec emax m e l)))%Z.
Proof.
  intros H. unfold shr_fexp. apply shr_nonneg.
  destruct l as [|[]]; exact H.
Qed.

Lemma round_nearest_even_nonneg (m : Z) (l : location) :
  (0 <= m)%Z -> (0 <= round_nearest_even m l)%Z.
Proof.
  intros H. destruct l as [|[]]; cbn; try lia. destruct (Z.even m); lia.
Qed.

Lemma round_aux_sign (s : bool) (m e : Z) (l : location) :
  (0 <= m)%Z -> has_sign s (binary_round_aux prec emax s m e l) = true.
Proof.
  intros H. unfold binary_round_aux.
  pose proof (shr_fexp_nonneg m e l H) as H1.
  destruct (shr_fexp prec emax m e l) as [mrs' e'] eqn:E1. cbn [fst] in H1.
  pose proof (round_nearest_even_nonneg _ (loc_of_shr_record mrs') H1) as H2.
  pose proof (shr_fexp_nonneg _ e' loc_Exact H2) as H3.
  destruct (shr_fexp prec emax _ e' loc_Exact) as [mrs'' e''] eqn:E2.
  cbn [fst] in H3.
  destruct (shr_m mrs'') as [|p|p]; [| |lia].
  - cbn. apply eqb_reflx.
  - destruct (e'' <=? emax - prec)%Z; cbn; apply eqb_reflx.
Qed.

Lemma binary_round_sign (s : bool) (m : positive) (e : Z) :
  has_sign s (binary_round prec emax s m e) = true.
Proof.
  unfold binary_round.
  destruct (shl_align m e _) as [mz ez]. apply round_aux_sign. lia.
Qed.

Lemma has_sign_number (s : bool) (a : number) :
  has_sign s a = true -> is_nan a = false.
Proof. destruct a; cbn; congruence. Qed.

Lemma binary_normalize_number (m e : Z) :
  is_nan (binary_normalize prec emax m e false) = false.
Proof.
  destruct m as [|p|p]; cbn [binary_normalize]; [reflexivity| |];
    eapply has_sign_number, binary_round_sign.
Qed.

Lemma fsub_number (a b : number) :
  is_nan a = false -> is_finite b = true -> is_nan (fsub a b) = false.
Proof.
  destruct a as [sa|sa| |sa ma ea], b as [sb|sb| |sb mb eb];
    try discriminate; intros _ _; try destruct sa; try destruct sb;
    try reflexivity; apply binary_normalize_number.
Qed.

Lemma fmul_self_sign (a : number) :
  is_nan a = false -> has_sign false (fmul a a) = true.
Proof.
  destruct a as [[]|[]| |s m e]; try discriminate; intros _; try reflexivity.
  unfold fmul, SFmul. rewrite xorb_nilpotent. apply round_aux_sign. lia.
Qed.

Lemma fadd_sign (a b : number) :
  has_sign false a = true -> has_sign false b = true ->
  has_sign false (fadd a b) = true.
Proof.
  destruct a as [[]|[]| |[] ma ea], b as [[]|[]| |[] mb eb];
    try discriminate; intros _ _; try reflexivity.
  unfold fadd, SFadd. cbn [cond_Zopp]. cbn [Z.add binary_normalize].
  apply binary_round_sign.
Qed.

Lemma sqrt_sign (a : number) :
  has_sign false a = true -> has_sign false (sqrt a) = true.
Proof.
  destruct a as [[]|[]| |[] m e]; try discriminate; intros _; try reflexivity.
  unfold sqrt, SFsqrt, SFsqrt_core_binary.
  match goal with |- context [Z.sqrtrem ?n] =>
    pose proof (Z.sqrtrem_sqrt n) as Hs; pose proof (Z.sqrt_nonneg n) as Hn;
    destruct (Z.sqrtrem n) as [q r] end.
  cbn [fst] in Hs. subst q. apply round_aux_sign. exact Hn.
Qed.


(** Each comparison away from NaN, with its reading on keys. *)
Lemma fle_cases (a b : number) :
  is_nan a = false -> is_nan b = false ->
  (fle a b = true /\ le3 (key a) (key b)) \/ (fle a b = false /\ ~ le3 (key a) (key b)).
Proof.
  intros Ha Hb. pose proof (fle_iff a b Ha Hb) as H.
  destruct (fle a b); [left|right]; split; auto.
  - now apply H.
  - intros K. apply H in K. discriminate.
Qed.

Lemma flt_cases (a b : number) :
  is_nan a = false -> is_nan b = false ->
  (flt a b = true /\ lt3 (key a) (key b)) \/ (flt a b = false /\ ~ lt3 (key a) (key b)).
Proof.
  intros Ha Hb. pose proof (flt_iff a b Ha Hb) as H.
  destruct (flt a b); [left|right]; split; auto.
  - now apply H.
  - intros K. apply H in K. discriminate.
Qed.



Lemma flt_nan_l (a b : number) : is_nan a = true -> flt a b = false.
Proof. destruct a; try discriminate; reflexivity. Qed.


Lemma le3_trans (u v w : Z * Z * Z) : le3 u v -> le3 v w -> le3 u w.
Proof. destruct u as [[? ?] ?], v as [[? ?] ?], w as [[? ?] ?]; cbn; lia. Qed.

Lemma fle_trans (a b c : number) :
  fle a b = true -> fle b c = true -> fle a c = true.
Proof.
  intros Hab Hbc.
  destruct (fle_is_number _ _ Hab) as [Ha Hb].
  destruct (fle_is_number _ _ Hbc) as [_ Hc].
  apply fle_iff; auto. apply fle_iff in Hab; auto. apply fle_iff in Hbc; auto.
  eauto using le3_trans.
Qed.

(** Away from NaN, [b < a] is the negation of [a <= b]. *)
Lemma flt_negb_fle (a b : number) :
  is_nan a = false -> is_nan b = false -> flt b a = negb (fle a b).
Proof.
  intros Ha Hb. destruct (fle a b) eqn:E; cbn.
  - now apply fle_not_flt.
  - now apply not_fle_flt.
Qed.

(** ** The builtins on sample values *)

(** [Math.round] at ties and around zero: 2.5 goes up to 3, -2.5 up to
    -2, -0.5 and -0.3 to -0; 0.49999999999999994, which a rounding
    addition of 0.5 would carry to 1, goes to 0. *)
Example round_samples :
  round (dec 25 10) = int 3
  /\ round (dec (-25) 10) = int (-2)
  /\ round (dec (-5) 10) = S754_zero true
  /\ round (dec (-3) 10) = S754_zero true
  /\ round (S754_finite false 9007199254740991 (-54)) = S754_zero false
  /\ fadd (S754_finite false 9007199254740991 (-54)) (dec 5 10) = int 1
  /\ round S754_nan = S754_nan
  /\ round Infinity = Infinity.
Proof. vm_compute. repeat split; reflexivity. Qed.

Example floor_samples :
  floor (dec 25 10) = int 2
  /\ floor (dec (-25) 10) = int (-3)
  /\ floor (dec 5 10) = S754_zero false
  /\ floor (dec (-5) 10) = int (-1).
Proof. vm_compute. repeat split; reflexivity. Qed.

(** [Math.max] and [Math.min] propagate NaN and order the zeros. *)
Example max_min_samples :
  max (int 1) S754_nan = S754_nan
  /\ min S754_nan (int 1) = S754_nan
  /\ max (S754_zero true) (S754_zero false) = S754_zero false
  /\ min (S754_zero false) (S754_zero true) = S754_zero true
  /\ max (int 8) (dec 576 10) = dec 576 10.
Proof. vm_compute. repeat split; reflexivity. Qed.

(** Each basket is at distance 0 from its own anchor. *)
Example distanceFromBasket_anchors :
  distanceFromBasket {| x := int 84; y := int 25 |} right = S754_zero false
  /\ distanceFromBasket {| x := int 10; y := int 25 |} left = S754_zero false.
Proof. vm_compute. split; reflexivity. Qed.

(** ** The coordinate mapper *)

Lemma isWithinCourtBounds_iff (p : CourtPosition number) (d : CourtDimensions number) :
  isWithinCourtBounds p d = true <->
  fle (int 0) p.(x) = true /\ fle p.(x) d.(courtLengthFeet) = true /\
  fle (int 0) p.(y) = true /\ fle p.(y) d.(courtWidthFeet) = true.
Proof.
  unfold isWithinCourtBounds. cbn [leb arith].
  rewrite !andb_true_iff. tauto.
Qed.

(** C5. [isWithinCourtBounds p d] is true exactly when
    [0 <= p.x <= d.courtLengthFeet] and [0 <= p.y <= d.courtWidthFeet],
    both ends included: it is true at the origin and at the far corner
    of any court with non-negative extents, and false as soon as a
    component is negative or exceeds its extent. *)
Theorem isWithinCourtBounds_spec (p : CourtPosition number) (d : CourtDimensions number) :
  (isWithinCourtBounds p d = true <->
     fle (int 0) p.(x) = true /\ fle p.(x) d.(courtLengthFeet) = true /\
     fle (int 0) p.(y) = true /\ fle p.(y) d.(courtWidthFeet) = true)
  /\ (fle (int 0) d.(courtLengthFeet) = true ->
      fle (int 0) d.(courtWidthFeet) = true ->
      isWithinCourtBounds {| x := int 0; y := int 0 |} d = true
      /\ isWithinCourtBounds
           {| x := d.(courtLengthFeet); y := d.(courtWidthFeet) |} d = true)
  /\ (flt p.(x) (int 0) = true \/ flt p.(y) (int 0) = true \/
      flt d.(courtLengthFeet) p.(x) = true \/ flt d.(courtWidthFeet) p.(y) = true ->
      isWithinCourtBounds p d = false).
Proof.
  split; [apply isWithinCourtBounds_iff|split].
  - intros HL HW.
    destruct (fle_is_number _ _ HL) as [_ HnL].
    destruct (fle_is_number _ _ HW) as [_ HnW].
    split; apply isWithinCourtBounds_iff; cbn [x y];
      repeat split; auto using fle_refl.
  - intros Hout.
    destruct (isWithinCourtBounds p d) eqn:E; [|reflexivity].
    apply isWithinCourtBounds_iff in E. destruct E as (E1 & E2 & E3 & E4).
    destruct Hout as [Ho|[Ho|[Ho|Ho]]]; apply flt_not_fle in Ho; congruence.
Qed.

Lemma isWithinCourtBounds_spec_witness :
  isWithinCourtBounds {| x := int 0; y := int 0 |} (App.surface (N:=number)) = true
  /\ isWithinCourtBounds {| x := int 47; y := int 50 |} (App.surface (N:=number)) = true.
Proof.
  assert (HL : fle (int 0) (App.surface (N:=number)).(courtLengthFeet) = true)
    by (vm_compute; reflexivity).
  assert (HW : fle (int 0) (App.surface (N:=number)).(courtWidthFeet) = true)
    by (vm_compute; reflexivity).
  destruct (isWithinCourtBounds_spec {| x := int 47; y := int 50 |} App.surface)
    as (_ & H & _).
  exact (H HL HW).
Defined.

(** C10. [screenToCourtCoordinates] reads only the pixel box of its
    dimensions argument: two records that agree on [width] and [height]
    give the same analytics position, whatever their extents in feet
    (in binary64 as in any other arithmetic). *)
Theorem screenToCourtCoordinates_ignores_feet
    {N : Type} `{Arith N} (p : Position N) (d1 d2 : CourtDimensions N) :
  d1.(width) = d2.(width) -> d1.(height) = d2.(height) ->
  screenToCourtCoordinates p d1 = screenToCourtCoordinates p d2.
Proof.
  intros Hw Hh. unfold screenToCourtCoordinates. now rewrite Hw, Hh.
Qed.

Lemma screenToCourtCoordinates_ignores_feet_witness :
  screenToCourtCoordinates {| x := int 250; y := int 235 |} (App.surface (N:=number))
  = screenToCourtCoordinates {| x := int 250; y := int 235 |}
      {| width := int 500; height := int 470;
         courtLengthFeet := int 94; courtWidthFeet := int 0 |}.
Proof.
  apply screenToCourtCoordinates_ignores_feet; reflexivity.
Defined.

(** *** Screen to analytics coordinates *)


Lemma round_exact_between (lo hi : Z) (a : Q) :
  (inject_Z lo <= a)%Q -> (a <= inject_Z hi)%Q ->
  (inject_Z lo <= Math_round a /\ Math_round a <= inject_Z hi)%Q.
Proof.
  intros Hlo Hhi. cbn [Math_round Exact.arith].
  rewrite <- !Zle_Qle. split.
  - rewrite <- (Qfloor_Z lo). apply Qfloor_resp_le. lra.
  - assert (H : (Qfloor (a + (1 # 2)) < hi + 1)%Z); [|lia].
    rewrite Zlt_Qlt. eapply Qle_lt_trans; [apply Qfloor_le|].
    rewrite inject_Z_plus. change (inject_Z 1) with 1%Q. lra.
Qed.

Lemma ratio_in_unit (a b : Q) :
  (0 < b)%Q -> (0 <= a)%Q -> (a <= b)%Q -> (0 <= a / b /\ a / b <= 1)%Q.
Proof.
  intros Hb Ha Hab. split.
  - apply Qle_shift_div_l; lra.
  - apply Qle_shift_div_r; lra.
Qed.




(** C2. [courtToScreenCoordinates] does not undo
    [screenToCourtCoordinates]: the click (250, 235) on the 500 x 470
    surface over 47 x 50 feet goes to (0, 225), which goes back to the
    pixel (0, 2115); neither coordinate is the one clicked, in binary64
    as in exact arithmetic. *)
Theorem courtToScreen_not_inverse :
  let p : Position number := App.click in
  let d : CourtDimensions number := App.surface in
  let back := courtToScreenCoordinates (screenToCourtCoordinates p d) d in
  back = {| x := of_Z 0; y := of_Z 2115 |}
  /\ back <> p
  /\ feq back.(x) p.(x) = false /\ feq back.(y) p.(y) = false
  /\ (let q : Position Q := App.click in
      let e : CourtDimensions Q := App.surface in
      let back' := courtToScreenCoordinates (screenToCourtCoordinates q e) e in
      ~ (back'.(x) == q.(x))%Q /\ ~ (back'.(y) == q.(y))%Q).
Proof.
  cbv zeta. repeat split; try (vm_compute; congruence).
Qed.

(** *** Shot zones by distance *)





(** ** The click handler *)

Import ShotPredictor.

(** Beyond the three-point distance no earlier rung of the ladder applies. *)
Lemma beyond_arc (d : number) :
  flt (dec 2375 100) d = true ->
  fle d (int 4) = false /\ fle d (int 8) = false.
Proof.
  intros H. split.
  - destruct (fle d (int 4)) eqn:E; [|reflexivity].
    pose proof (flt_fle_trans _ _ _ H E) as K. vm_compute in K. discriminate K.
  - destruct (fle d (int 8)) eqn:E; [|reflexivity].
    pose proof (flt_fle_trans _ _ _ H E) as K. vm_compute in K. discriminate K.
Qed.

Lemma shotZone_ladder (courtPos : CourtPosition number) (d : number) :
  (fle d (int 4) = true -> shotZone courtPos d = "Restricted Area"%string)
  /\ (flt (int 4) d = true -> fle d (int 8) = true ->
      shotZone courtPos d = "In The Paint (Non-RA)"%string)
  /\ (flt (dec 2375 100) d = true ->
      flt (int 200) (SFabs courtPos.(x)) = true ->
      flt courtPos.(y) (int 150) = true ->
      shotZone courtPos d =
        if flt (int 0) courtPos.(x) then "Right Corner 3"%string
        else "Left Corner 3"%string)
  /\ (flt (dec 2375 100) d = true ->
      flt (int 200) (SFabs courtPos.(x)) && flt courtPos.(y) (int 150) = false ->
      shotZone courtPos d = "Above the Break 3"%string)
  /\ (fle d (int 4) = false ->
      flt (int 4) d && fle d (int 8) = false ->
      flt (dec 2375 100) d = false ->
      shotZone courtPos d = "Mid-Range"%string).
Proof.
  unfold shotZone. cbn [leb ltb Math_abs arith].
  repeat split.
  - intros ->. reflexivity.
  - intros H4 H8. rewrite (flt_not_fle _ _ H4), H8. reflexivity.
  - intros H23 Hx Hy. destruct (beyond_arc d H23) as [-> ->].
    rewrite H23, Hx, Hy. reflexivity.
  - intros H23 Hc. destruct (beyond_arc d H23) as [-> ->].
    rewrite H23, Hc. reflexivity.
  - intros H4 H48 H23. rewrite H4, H23.
    destruct (fle d (int 8)) eqn:H8; [|reflexivity].
    destruct (fle_is_number _ _ H8) as [Hd Hc].
    assert (N4 : is_nan (int 4 : number) = false) by (vm_compute; reflexivity).
    rewrite (not_fle_flt d (int 4) Hd N4 H4) in H48. discriminate H48.
Qed.

(** C4. The click handler classifies the analytics position [(x, y)]
    it sends by [d = sqrt((x/10)^2 + ((y-80)/10)^2)]: "Restricted Area"
    for [d <= 4], "In The Paint (Non-RA)" for [4 < d <= 8]; for
    [d > 23.75] a corner three, right for [x > 0] and left otherwise,
    when [|x| > 200] and [y < 150], and "Above the Break 3" if not;
    "Mid-Range" in every remaining case.  The shot type is
    "3PT Field Goal" exactly when [d > 23.75] and "2PT Field Goal"
    otherwise.  Without a player nothing is sent. *)
Theorem handleCourtClick_spec
    (player : string) (width height clickX clickY : number) :
  player <> EmptyString ->
  exists sd : ShotData,
    handleCourtClick (Some player) width height clickX clickY = inr sd
    /\ {| x := sd.(LOC_X); y := sd.(LOC_Y) |}
       = screenToCourtCoordinates
           {| x := clickX; y := clickY |}
           {| CourtCoordinates.width := width; CourtCoordinates.height := height;
              courtLengthFeet := int 47; courtWidthFeet := int 50 |}
    /\ sd.(PLAYER_NAME) = player
    /\ let x := sd.(LOC_X) in
       let y := sd.(LOC_Y) in
       let d := sqrt (fadd (fmul (fdiv x (int 10)) (fdiv x (int 10)))
                           (fmul (fdiv (fsub y (int 80)) (int 10))
                                 (fdiv (fsub y (int 80)) (int 10)))) in
       let zone := sd.(SHOT_ZONE_BASIC) in
       sd.(SHOT_DISTANCE) = d
       /\ (fle d (int 4) = true -> zone = "Restricted Area"%string)
       /\ (flt (int 4) d = true -> fle d (int 8) = true ->
           zone = "In The Paint (Non-RA)"%string)
       /\ (flt (dec 2375 100) d = true ->
           flt (int 200) (SFabs x) = true -> flt y (int 150) = true ->
           zone = if flt (int 0) x then "Right Corner 3"%string
                  else "Left Corner 3"%string)
       /\ (flt (dec 2375 100) d = true ->
           flt (int 200) (SFabs x) && flt y (int 150) = false ->
           zone = "Above the Break 3"%string)
       /\ (fle d (int 4) = false ->
           flt (int 4) d && fle d (int 8) = false ->
           flt (dec 2375 100) d = false ->
           zone = "Mid-Range"%string)
       /\ (sd.(SHOT_TYPE) = "3PT Field Goal"%string <-> flt (dec 2375 100) d = true)
       /\ (sd.(SHOT_TYPE) = "2PT Field Goal"%string <-> flt (dec 2375 100) d = false).
Proof.
  intros Hp.
  set (courtPos := screenToCourtCoordinates
           {| x := clickX; y := clickY |}
           {| CourtCoordinates.width := width; CourtCoordinates.height := height;
              courtLengthFeet := int 47; courtWidthFeet := int 50 |}).
  exists {| LOC_X := courtPos.(x); LOC_Y := courtPos.(y);
            SHOT_DISTANCE := shotDistance courtPos;
            SHOT_TYPE := if (shotType (shotDistance courtPos) =? 3)%Z
                         then "3PT Field Goal"%string
                         else "2PT Field Goal"%string;
            SHOT_ZONE_BASIC := shotZone courtPos (shotDistance courtPos);
            PLAYER_NAME := player |}.
  split; [destruct player; [congruence|reflexivity]|].
  split; [destruct courtPos; reflexivity|].
  split; [reflexivity|].
  cbn [LOC_X LOC_Y SHOT_DISTANCE SHOT_TYPE SHOT_ZONE_BASIC].
  assert (Hd : shotDistance courtPos
               = sqrt (fadd (fmul (fdiv courtPos.(x) (int 10)) (fdiv courtPos.(x) (int 10)))
                            (fmul (fdiv (fsub courtPos.(y) (int 80)) (int 10))
                                  (fdiv (fsub courtPos.(y) (int 80)) (int 10))))).
  { unfold shotDistance, Math_pow2. cbn [add sub mul div arith].
    now rewrite fsub_zero. }
  rewrite <- Hd. generalize (shotDistance courtPos). intros d.
  destruct (shotZone_ladder courtPos d) as (Z1 & Z2 & Z3 & Z4 & Z5).
  split; [reflexivity|].
  repeat (split; [assumption|]).
  unfold shotType. cbn [ltb arith].
  destruct (flt (dec 2375 100) d); cbn; split; split; congruence.
Qed.

Lemma handleCourtClick_spec_witness :
  exists sd : ShotData,
    handleCourtClick (Some "LeBron James"%string) (int 500) (int 470)
      (int 250) (int 235) = inr sd
    /\ sd.(SHOT_ZONE_BASIC) = "Mid-Range"%string
    /\ sd.(SHOT_TYPE) = "2PT Field Goal"%string.
Proof.
  destruct (handleCourtClick_spec "LeBron James" (int 500) (int 470)
              (int 250) (int 235)) as (sd & Hsd & _ & _ & H); [discriminate|].
  exists sd. split; [exact Hsd|].
  vm_compute in Hsd. injection Hsd as <-. split; reflexivity.
Defined.

(** Without a selected player the handler only reports the error. *)
Lemma handleCourtClick_no_player (width height clickX clickY : number) :
  handleCourtClick None width height clickX clickY
    = inl "Please select a player first"%string
  /\ handleCourtClick (Some EmptyString) width height clickX clickY
    = inl "Please select a player first"%string.
Proof. split; reflexivity. Qed.

(** ** Linearity of the feet-to-pixel map *)







(** ** The heatmap: band, colour and opacity *)

Import Heatmap.

Lemma SFcompare_eq_finite (s : bool) (m : positive) (e : Z) (b : number) :
  SFcompare (S754_finite s m e) b = Some Eq -> b = S754_finite s m e.
Proof.
  destruct b as [sb|sb| |sb mb eb]; cbn [SFcompare];
    try destruct s; try destruct sb; try discriminate.
  all: destruct (Z.compare_spec e eb); try discriminate;
    change (Pos.compare_cont Eq m mb) with (Pos.compare m mb);
    destruct (Pos.compare_spec m mb); cbn [CompOpp]; try discriminate;
    intros _; subst; reflexivity.
Qed.

Lemma flt_compare (a b : number) : flt a b = true <-> SFcompare a b = Some Lt.
Proof.
  unfold flt, SFltb. destruct (SFcompare a b) as [[]|]; split; congruence.
Qed.

Lemma compare_gt_flt (a b : number) : SFcompare a b = Some Gt -> flt b a = true.
Proof.
  intros H. apply flt_compare. rewrite SFcompare_antisym, H. reflexivity.
Qed.

(** [Math.max(lo, Math.min(hi, v))] is the clamp of [v], for constant
    bounds in order. *)
Lemma max_min_clamp (slo shi : bool) (mlo mhi : positive) (elo ehi : Z) (v : number) :
  let lo := S754_finite slo mlo elo in
  let hi := S754_finite shi mhi ehi in
  flt lo hi = true ->
  max lo (min hi v) = Spec.clamp v lo hi.
Proof.
  intros lo hi Hlh. unfold Spec.clamp. cbn [ltb arith].
  destruct (SFcompare hi v) as [[]|] eqn:Ehv.
  - (* v === hi *)
    apply SFcompare_eq_finite in Ehv. change (v = hi) in Ehv. subst v.
    assert (Hm : min hi hi = hi).
    { unfold min. rewrite SFcompare_refl by reflexivity. reflexivity. }
    rewrite Hm. unfold max. rewrite (proj1 (flt_compare lo hi) Hlh).
    rewrite (fle_not_flt lo hi (flt_fle _ _ Hlh)), flt_irrefl. reflexivity.
  - (* hi < v *)
    assert (Hm : min hi v = hi) by (unfold min; now rewrite Ehv).
    rewrite Hm. unfold max. rewrite (proj1 (flt_compare lo hi) Hlh).
    pose proof (proj2 (flt_compare hi v) Ehv) as Hhv.
    rewrite Hhv.
    rewrite (fle_not_flt lo v (flt_fle _ _ (flt_fle_trans _ _ _ Hlh (flt_fle _ _ Hhv)))).
    reflexivity.
  - (* v < hi *)
    assert (Hm : min hi v = v) by (unfold min; now rewrite Ehv).
    rewrite Hm.
    pose proof (compare_gt_flt _ _ Ehv) as Hvh.
    rewrite (fle_not_flt v hi (flt_fle _ _ Hvh)).
    unfold max.
    destruct (SFcompare lo v) as [[]|] eqn:Elv.
    + apply SFcompare_eq_finite in Elv. change (v = lo) in Elv. subst v.
      rewrite flt_irrefl. reflexivity.
    + pose proof (proj2 (flt_compare lo v) Elv) as Hlv.
      rewrite (fle_not_flt lo v (flt_fle _ _ Hlv)). reflexivity.
    + rewrite (compare_gt_flt _ _ Elv). reflexivity.
    + destruct v; cbn in Elv; try discriminate; reflexivity.
  - (* v is NaN *)
    destruct v; cbn in Ehv; try discriminate. reflexivity.
Qed.

Section HeatmapFacts.

Variable interpolateRdYlGn : number -> string.
Variable d3_color : string -> option (Canvas2D.Rgb number).
Variable props : HeatmapProps number.

Let lb : number := orDefault props.(leagueBand) (dec 2 10).
Let mo : number := orDefault props.(maxOpacity) (dec 85 100).

Lemma band_clamp : band props = Spec.clamp lb (dec 5 100) (dec 4 10).
Proof.
  unfold band. cbn [Math_max Math_min arith]. fold lb.
  change (dec 5 100 : number) with (S754_finite false 7205759403792794 (-57)).
  change (dec 4 10 : number) with (S754_finite false 7205759403792794 (-54)).
  apply max_min_clamp. vm_compute. reflexivity.
Qed.

Lemma flt_false_fle (a b : number) :
  is_nan a = false -> is_nan b = false -> flt a b = false -> fle b a = true.
Proof.
  intros Ha Hb H. rewrite (flt_negb_fle b a Hb Ha) in H.
  now destruct (fle b a).
Qed.

Lemma band_range :
  is_nan lb = false ->
  fle (dec 5 100) (band props) = true /\ fle (band props) (dec 4 10) = true.
Proof.
  intros Hlb. rewrite band_clamp. unfold Spec.clamp. cbn [ltb arith].
  assert (N5 : is_nan (dec 5 100 : number) = false) by (vm_compute; reflexivity).
  assert (N4 : is_nan (dec 4 10 : number) = false) by (vm_compute; reflexivity).
  destruct (flt lb (dec 5 100)) eqn:E5; [split; vm_compute; reflexivity|].
  destruct (flt (dec 4 10) lb) eqn:E4; [split; vm_compute; reflexivity|].
  split; apply flt_false_fle; auto.
Qed.

Lemma between_positive (b : number) :
  fle (dec 5 100) b = true -> fle b (dec 4 10) = true -> positive_finite b = true.
Proof.
  intros H1 H2.
  destruct (fle_is_number _ _ H1) as [N1 Nb].
  destruct (fle_is_number _ _ H2) as [_ N2].
  apply (fle_iff _ _ N1 Nb) in H1. apply (fle_iff _ _ Nb N2) in H2.
  assert (K1 : key (dec 5 100) = (1, -57, 7205759403792794)%Z)
    by (vm_compute; reflexivity).
  assert (K2 : key (dec 4 10) = (1, -54, 7205759403792794)%Z)
    by (vm_compute; reflexivity).
  rewrite K1 in H1. rewrite K2 in H2. clear K1 K2 N1 N2.
  destruct b as [[]|[]| |[] m e]; cbn [key le3] in H1, H2;
    first [reflexivity|discriminate Nb|exfalso; lia].
Qed.

Lemma band_positive : is_nan lb = false -> positive_finite (band props) = true.
Proof.
  intros Hlb. destruct (band_range Hlb). now apply between_positive.
Qed.

End HeatmapFacts.


Lemma emphasis_baseline (b mo : number) :
  positive_finite b = true -> is_finite mo = true ->
  D3.scaleLinear (int 0) b (dec 18 100) mo (S754_zero false) = Some (dec 18 100).
Proof.
  intros Hb Hmo.
  destruct b as [| | |[] m e]; try discriminate.
  destruct mo as [sm|sm| |sm mm em]; try discriminate;
    destruct sm; vm_compute; reflexivity.
Qed.





(** *** The same scales without rounding *)









Lemma Qle_bool_false_lt (a b : Q) : Qle_bool a b = false -> (b < a)%Q.
Proof.
  intros E. apply Qnot_le_lt. intros K. apply Qle_bool_iff in K. congruence.
Qed.


(** *** The heatmap's tolerance band and its saturation *)


Lemma alpha_baseline (props : HeatmapProps number) (p : HeatmapPoint number) :
  is_nan (orDefault props.(leagueBand) (dec 2 10)) = false ->
  is_finite (avg props) = true ->
  is_finite (orDefault props.(maxOpacity) (dec 85 100)) = true ->
  prob props p = avg props ->
  emphasisScale props (delta props p) = Some (dec 18 100).
Proof.
  intros Hlb Ha Hmo Hp. unfold emphasisScale, delta. rewrite Hp.
  cbn [sub Math_abs arith]. rewrite (fsub_self _ Ha).
  apply emphasis_baseline; auto using band_positive.
Qed.







(** ** The draw effect *)

Import Canvas2D.






Section DrawEffect.

Variable interpolateRdYlGn : number -> string.
Variable d3_color : string -> option (Rgb number).
Variable props : HeatmapProps number.
Variable window : Browser.




End DrawEffect.




(** *** When the pass returns *)

Lemma max_eight_not_negative (v : number) : flt (max (int 8) v) (int 0) = false.
Proof.
  assert (H8 : flt (int 8) (int 0) = false) by (vm_compute; reflexivity).
  assert (E8 : (int 8 : number) = S754_finite false 4503599627370496 (-49))
    by (vm_compute; reflexivity).
  unfold max. destruct (SFcompare (int 8) v) as [[]|] eqn:E.
  - rewrite E8 at 1. exact H8.
  - destruct (flt v (int 0)) eqn:F; [|reflexivity].
    apply flt_compare in E.
    rewrite (flt_fle_trans _ _ _ E (flt_fle _ _ F)) in H8. discriminate H8.
  - exact H8.
  - reflexivity.
Qed.

Lemma fillSplat_paintable (s : Splat number) (drawn : list (Splat number)) :
  paintable s = true -> flt s.(cr) (int 0) = false ->
  fillSplat s drawn = Normal (drawn ++ [s]).
Proof.
  unfold paintable, fillSplat, createRadialGradient, addColorStop, arc, parsesAsColor.
  rewrite !andb_true_iff. intros [[[Hx Hy] Hr] [[[Cr Cg] Cb] Ca]] Hneg.
  cbn [forallb ltb leb arith]. rewrite Hx, Hy, Hr, Hneg, Cr, Cg, Cb, Ca.
  assert (F0 : is_finite (int 0) = true) by (vm_compute; reflexivity).
  assert (L0 : flt (int 0) (int 0) = false) by (vm_compute; reflexivity).
  assert (A0 : fle (int 0) (int 0) && fle (int 0) (int 1) = true)
    by (vm_compute; reflexivity).
  assert (A1 : fle (int 0) (int 1) && fle (int 1) (int 1) = true)
    by (vm_compute; reflexivity).
  rewrite F0, L0, A0, A1. reflexivity.
Qed.

Section Totality.

Variable interpolateRdYlGn : number -> string.
Variable d3_color : string -> option (Rgb number).
Variable props : HeatmapProps number.
Variable window : Browser.

Lemma splatOf_radius (dw dh : number) (p : HeatmapPoint number) (s : Splat number) :
  splatOf interpolateRdYlGn d3_color props dw dh p = Some s ->
  flt s.(cr) (int 0) = false.
Proof.
  unfold splatOf.
  destruct (colorScale interpolateRdYlGn props (prob props p)) as [t|];
    [|discriminate].
  destruct (d3_color t) as [color|]; [|discriminate].
  intros H.
  apply (f_equal (fun o => match o with
                           | Some s' => flt s'.(cr) (int 0)
                           | None => false
                           end)) in H.
  cbv beta iota in H. cbn [cr] in H. rewrite <- H.
  apply max_eight_not_negative.
Qed.

Lemma drawPoints_paintable (dw dh : number) (points : list (HeatmapPoint number)) :
  (forall p s, In p points ->
     splatOf interpolateRdYlGn d3_color props dw dh p = Some s ->
     paintable s = true) ->
  forall drawn, exists drawn',
    drawPoints interpolateRdYlGn d3_color props dw dh points drawn = Normal drawn'.
Proof.
  induction points as [|p rest IH]; intros Hall drawn; cbn [drawPoints].
  - exists drawn. reflexivity.
  - assert (Hrest : forall q s, In q rest ->
              splatOf interpolateRdYlGn d3_color props dw dh q = Some s ->
              paintable s = true)
      by (intros q s Hq; apply Hall; right; exact Hq).
    destruct (splatOf interpolateRdYlGn d3_color props dw dh p) as [s|] eqn:Es.
    + rewrite (fillSplat_paintable s drawn (Hall p s (or_introl eq_refl) Es)
                 (splatOf_radius dw dh p s Es)).
      cbn [bind]. apply IH, Hrest.
    + apply IH, Hrest.
Qed.

Lemma draw_paintable (canvasRef : option Canvas) :
  (forall p s, In p props.(data) ->
     splatOf interpolateRdYlGn d3_color props
       (drawWidth props window) (drawHeight props window) p = Some s ->
     paintable s = true) ->
  exists after drawn,
    draw interpolateRdYlGn d3_color props window canvasRef = Normal (after, drawn).
Proof.
  intros Hall. unfold draw.
  destruct canvasRef as [canvas|]; [|now exists None, []].
  destruct (getContext window); cbn [negb]; [|now exists (Some canvas), []].
  destruct (offscreenGetContext window); cbn [negb]; [|now eexists _, []].
  destruct (drawPoints_paintable _ _ _ Hall []) as [drawn' ->].
  cbn [bind]. now eexists _, _.
Qed.

End Totality.



(** * Further properties of the front end *)

(** ** More on the coordinate mapper and the click handler *)

(** *** Zones grow with the distance *)

Lemma ladder_rank_mono (t1 t2 t3 d1 d2 : number) :
  fle d1 d2 = true ->
  let rank (d : number) : nat :=
    if fle d t1 then 0%nat else if fle d t2 then 1%nat
    else if fle d t3 then 2%nat else 3%nat in
  (rank d1 <= rank d2)%nat.
Proof.
  intros H rank. subst rank. cbv beta.
  pose proof (fun t => fle_trans d1 d2 t H) as M.
  destruct (fle d2 t1) eqn:B1; [rewrite (M t1 B1); lia|].
  destruct (fle d2 t2) eqn:B2;
    [rewrite (M t2 B2); destruct (fle d1 t1); lia|].
  destruct (fle d2 t3) eqn:B3;
    [rewrite (M t3 B3); destruct (fle d1 t1), (fle d1 t2); lia|].
  destruct (fle d1 t1), (fle d1 t2), (fle d1 t3); lia.
Qed.

(** X1. [getShotZone] never moves a shot towards the basket when its
    distance grows: if the distance from the right basket computed for
    [p] is at most the one computed for [q], the zone of [p] comes no
    later than the zone of [q] in the order Restricted Area, Paint,
    Mid-range, Three-point.  This holds on binary64, roundings
    included. *)
Theorem getShotZone_monotone (p q : CourtPosition number) :
  fle (distanceFromBasket p right) (distanceFromBasket q right) = true ->
  (Spec.zoneRank (getShotZone p) <= Spec.zoneRank (getShotZone q))%nat.
Proof.
  intros H.
  pose proof (ladder_rank_mono (int 8) (int 16) (dec 2375 100) _ _ H) as M.
  cbv zeta in M. cbv beta in M. unfold getShotZone. cbv zeta.
  cbn [leb arith]. clear H. revert M.
  generalize (distanceFromBasket p right) (distanceFromBasket q right)
    (int 8 : number) (int 16 : number) (dec 2375 100 : number).
  intros d1 d2 t1 t2 t3.
  destruct (fle d1 t1), (fle d1 t2), (fle d1 t3),
    (fle d2 t1), (fle d2 t2), (fle d2 t3); exact (fun M => M).
Qed.

Lemma getShotZone_monotone_witness :
  (Spec.zoneRank (getShotZone {| x := int 84; y := int 25 |})
   <= Spec.zoneRank (getShotZone {| x := int 50; y := int 25 |}))%nat.
Proof.
  apply (getShotZone_monotone {| x := int 84; y := int 25 |}
           {| x := int 50; y := int 25 |}).
  vm_compute; reflexivity.
Defined.
(** *** The request is consistent *)

(** X2. Every request the click handler builds is consistent: its
    [SHOT_TYPE] is "3PT Field Goal" exactly when its [SHOT_ZONE_BASIC]
    is one of the three three-point zones, and "2PT Field Goal" exactly
    when the zone is Restricted Area, In The Paint (Non-RA) or
    Mid-Range. *)
Theorem handleCourtClick_type_matches_zone
    (selectedPlayer : option string) (width height clickX clickY : number)
    (sd : ShotData) :
  handleCourtClick selectedPlayer width height clickX clickY = inr sd ->
  (sd.(SHOT_TYPE) = "3PT Field Goal"%string <->
     In sd.(SHOT_ZONE_BASIC)
        ["Right Corner 3"; "Left Corner 3"; "Above the Break 3"]%string)
  /\ (sd.(SHOT_TYPE) = "2PT Field Goal"%string <->
     In sd.(SHOT_ZONE_BASIC)
        ["Restricted Area"; "In The Paint (Non-RA)"; "Mid-Range"]%string).
Proof.
  unfold handleCourtClick.
  destruct selectedPlayer as [[|c player]|]; try (intros H; discriminate H).
  intros H.
  apply (f_equal (fun r => match r with inr s => s | inl _ => sd end)) in H.
  cbv beta iota in H. subst sd.
  cbn [SHOT_TYPE SHOT_ZONE_BASIC].
  generalize (screenToCourtCoordinates {| x := clickX; y := clickY |}
                {| CourtCoordinates.width := width;
                   CourtCoordinates.height := height;
                   courtLengthFeet := int 47; courtWidthFeet := int 50 |}).
  intros courtPos. generalize (shotDistance courtPos). intros d.
  unfold shotType, shotZone. cbn [leb ltb Math_abs arith].
  destruct (flt (dec 2375 100) d) eqn:H23.
  - destruct (beyond_arc d H23) as [-> ->]. clear H23.
    generalize (flt (int 200) (SFabs courtPos.(x))) (flt courtPos.(y) (int 150))
      (flt (int 0) courtPos.(x)).
    intros [] [] []; cbn; split; split; intros K;
      try discriminate K; intuition (try discriminate; auto).
  - clear H23.
    generalize (fle d (int 4)) (fle d (int 8)).
    intros [] []; cbn; split; split; intros K;
      try discriminate K; intuition (try discriminate; auto).
Qed.

Lemma handleCourtClick_type_matches_zone_witness :
  exists sd : ShotData,
    handleCourtClick (Some "Stephen Curry"%string) (int 500) (int 470)
      (int 5) (int 460) = inr sd
    /\ sd.(SHOT_TYPE) = "3PT Field Goal"%string
    /\ In sd.(SHOT_ZONE_BASIC)
         ["Right Corner 3"; "Left Corner 3"; "Above the Break 3"]%string.
Proof.
  assert (E : exists sd : ShotData,
            handleCourtClick (Some "Stephen Curry"%string) (int 500) (int 470)
              (int 5) (int 460) = inr sd
            /\ sd.(SHOT_TYPE) = "3PT Field Goal"%string).
  { eexists; split; [reflexivity|]. vm_compute. reflexivity. }
  destruct E as (sd & Hsd & Ht). exists sd. split; [exact Hsd|].
  split; [exact Ht|].
  apply (handleCourtClick_type_matches_zone _ _ _ _ _ _ Hsd). exact Ht.
Defined.
(** *** The request carries numbers *)

Lemma div_core_nonneg (m1 e1 m2 e2 : Z) :
  (0 <= m1)%Z -> (0 < m2)%Z ->
  (0 <= fst (fst (SFdiv_core_binary prec emax m1 e1 m2 e2)))%Z.
Proof.
  intros H1 H2. unfold SFdiv_core_binary.
  set (s := (e1 - e2 - _)%Z). clearbody s.
  set (m' := match s with Z0 => m1 | Zpos _ => Z.shiftl m1 s | Zneg _ => 0%Z end).
  assert (Hm : (0 <= m')%Z).
  { subst m'. destruct s; [assumption| |lia]. now apply Z.shiftl_nonneg. }
  clearbody m'.
  pose proof (Z_div_mod m' m2 ltac:(lia)) as D.
  unfold Z.div_eucl in *. fold (Z.div_eucl m' m2) in *.
  destruct (Z.div_eucl m' m2) as [q r]. cbn [fst].
  destruct D as [D1 D2]. nia.
Qed.

Lemma fdiv_number (a b : number) :
  is_nan a = false -> positive_finite b = true -> is_nan (fdiv a b) = false.
Proof.
  destruct b as [| | |[] mb eb]; try discriminate.
  destruct a as [sa|sa| |sa ma ea]; try discriminate; intros _ _;
    try reflexivity.
  unfold fdiv, SFdiv.
  pose proof (div_core_nonneg (Zpos ma) ea (Zpos mb) eb ltac:(lia) ltac:(lia)) as Q.
  destruct (SFdiv_core_binary prec emax (Zpos ma) ea (Zpos mb) eb) as [[mz ez] lz].
  cbn [fst] in Q. eapply has_sign_number, round_aux_sign. exact Q.
Qed.

Lemma fmul_number (a b : number) :
  is_nan a = false -> positive_finite b = true -> is_nan (fmul a b) = false.
Proof.
  destruct b as [| | |[] mb eb]; try discriminate.
  destruct a as [sa|sa| |sa ma ea]; try discriminate; intros _ _;
    try reflexivity.
  unfold fmul, SFmul. eapply has_sign_number, round_aux_sign. lia.
Qed.

Lemma fadd_number (a b : number) :
  is_finite a = true -> is_nan b = false -> is_nan (fadd a b) = false.
Proof.
  destruct a as [sa|sa| |sa ma ea], b as [sb|sb| |sb mb eb];
    try discriminate; intros _ _; try destruct sa; try destruct sb;
    try reflexivity; apply binary_normalize_number.
Qed.

Lemma round_number (a : number) : is_nan a = false -> is_nan (round a) = false.
Proof.
  destruct a as [sa|sa| |sa ma ea]; try discriminate; intros _;
    try reflexivity.
  unfold round. destruct (0 <=? ea)%Z; [reflexivity|].
  destruct (_ =? 0)%Z; [reflexivity|]. apply binary_normalize_number.
Qed.

Lemma screenToCourtCoordinates_number (p : Position number) (d : CourtDimensions number) :
  positive_finite d.(CourtCoordinates.width) = true ->
  positive_finite d.(CourtCoordinates.height) = true ->
  is_nan p.(x) = false -> is_nan p.(y) = false ->
  is_nan (screenToCourtCoordinates p d).(x) = false
  /\ is_nan (screenToCourtCoordinates p d).(y) = false.
Proof.
  intros Hw Hh Hx Hy. unfold screenToCourtCoordinates. cbn [x y].
  cbn [Math_round add sub mul div arith]. split; apply round_number.
  - apply fmul_number; [|vm_compute; reflexivity].
    apply fsub_number; [|vm_compute; reflexivity].
    now apply fdiv_number.
  - apply fadd_number; [vm_compute; reflexivity|].
    apply fmul_number; [|vm_compute; reflexivity].
    now apply fdiv_number.
Qed.

Lemma shotDistance_sign (courtPos : CourtPosition number) :
  is_nan courtPos.(x) = false -> is_nan courtPos.(y) = false ->
  has_sign false (shotDistance courtPos) = true.
Proof.
  intros Hx Hy. unfold shotDistance, Math_pow2. cbn [add sub mul div arith].
  apply sqrt_sign, fadd_sign; apply fmul_self_sign, fdiv_number.
  2, 4: vm_compute; reflexivity.
  all: apply fsub_number; [assumption|vm_compute; reflexivity].
Qed.

(** X3. With a player selected, a surface of positive finite size and a
    click whose offsets are not NaN, the handler builds a request, and
    the request carries numbers: [LOC_X] and [LOC_Y] are not NaN and
    [SHOT_DISTANCE] is +0, a positive number or +Infinity. *)
Theorem handleCourtClick_sends_numbers
    (player : string) (width height clickX clickY : number) :
  player <> EmptyString ->
  positive_finite width = true -> positive_finite height = true ->
  is_nan clickX = false -> is_nan clickY = false ->
  exists sd : ShotData,
    handleCourtClick (Some player) width height clickX clickY = inr sd
    /\ is_nan sd.(LOC_X) = false
    /\ is_nan sd.(LOC_Y) = false
    /\ has_sign false sd.(SHOT_DISTANCE) = true.
Proof.
  intros Hp Hw Hh Hx Hy. unfold handleCourtClick.
  destruct player as [|c player]; [congruence|].
  eexists; split; [reflexivity|]. cbn [LOC_X LOC_Y SHOT_DISTANCE].
  destruct (screenToCourtCoordinates_number
              {| x := clickX; y := clickY |}
              {| CourtCoordinates.width := width;
                 CourtCoordinates.height := height;
                 courtLengthFeet := int 47; courtWidthFeet := int 50 |}
              Hw Hh Hx Hy) as [Kx Ky].
  repeat split; try assumption. now apply shotDistance_sign.
Qed.

Lemma handleCourtClick_sends_numbers_witness :
  exists sd : ShotData,
    handleCourtClick (Some "Kevin Durant"%string) (int 500) (int 470)
      (int 250) (int 235) = inr sd
    /\ is_nan sd.(LOC_X) = false
    /\ is_nan sd.(LOC_Y) = false
    /\ has_sign false sd.(SHOT_DISTANCE) = true.
Proof.
  apply (handleCourtClick_sends_numbers "Kevin Durant" (int 500) (int 470)
           (int 250) (int 235)); try (vm_compute; reflexivity).
  discriminate.
Defined.
(** *** Court feet, pixels and back, read without rounding error *)

(** Closed comparisons are settled by evaluation. *)
Ltac evaluate :=
  vm_compute; first [reflexivity | discriminate | intros K; discriminate K].




(** ** More on the draw effect *)

(** *** The exceptions a pass can end with *)

Lemma fillSplat_no_index_error (s : Splat number) (drawn : list (Splat number)) :
  flt s.(cr) (int 0) = false ->
  Spec.raises (fillSplat s drawn) IndexSizeError = false.
Proof.
  intros Hneg.
  unfold fillSplat, createRadialGradient, addColorStop, arc.
  cbn [forallb ltb leb arith]. rewrite Hneg.
  assert (L0 : flt (int 0) (int 0) = false) by (vm_compute; reflexivity).
  assert (A0 : fle (int 0) (int 0) && fle (int 0) (int 1) = true)
    by (vm_compute; reflexivity).
  assert (A1 : fle (int 0) (int 1) && fle (int 1) (int 1) = true)
    by (vm_compute; reflexivity).
  rewrite L0, A0, A1. clear L0 A0 A1. cbn [orb].
  destruct (is_finite s.(cx) && _); [|reflexivity]. cbn [bind].
  destruct (parsesAsColor s.(colour) s.(alpha)); [|reflexivity]. cbn [bind].
  destruct (parsesAsColor s.(colour) _); [|reflexivity]. cbn [bind].
  destruct (is_finite s.(cx) && _); reflexivity.
Qed.

Section Passes.

Variable interpolateRdYlGn : number -> string.
Variable d3_color : string -> option (Rgb number).
Variable props : HeatmapProps number.
Variable window : Browser.

Lemma drawPoints_no_index_error (dw dh : number) (points : list (HeatmapPoint number)) :
  forall drawn,
    Spec.raises (drawPoints interpolateRdYlGn d3_color props dw dh points drawn)
      IndexSizeError = false.
Proof.
  induction points as [|p rest IH]; intros drawn; cbn [drawPoints].
  - reflexivity.
  - destruct (splatOf interpolateRdYlGn d3_color props dw dh p) as [s|] eqn:Es;
      [|apply IH].
    pose proof (fillSplat_no_index_error s drawn
                  (splatOf_radius interpolateRdYlGn d3_color props dw dh p s Es)) as F.
    destruct (fillSplat s drawn) as [drawn'|e]; cbn [bind]; [apply IH|exact F].
Qed.

(** What the loop has filled when it ends normally. *)
Lemma drawPoints_normal (dw dh : number) (points : list (HeatmapPoint number)) :
  forall drawn drawn',
    drawPoints interpolateRdYlGn d3_color props dw dh points drawn = Normal drawn' ->
    drawn' = drawn ++ Spec.splats interpolateRdYlGn d3_color props dw dh points.
Proof.
  induction points as [|p rest IH]; intros drawn drawn'; cbn [drawPoints].
  - intros H. apply (f_equal (fun c => match c with Normal l => l | Throw _ => drawn end)) in H.
    cbv beta iota in H. subst drawn'. cbn. now rewrite app_nil_r.
  - unfold Spec.splats. cbn [flat_map]. fold (Spec.splats interpolateRdYlGn d3_color props dw dh rest).
    destruct (splatOf interpolateRdYlGn d3_color props dw dh p) as [s|] eqn:Es.
    + unfold fillSplat.
      destruct (createRadialGradient _ _ _ _ _ _); cbn [bind]; [|intros K; discriminate K].
      destruct (addColorStop _ _ _); cbn [bind]; [|intros K; discriminate K].
      destruct (addColorStop _ _ _); cbn [bind]; [|intros K; discriminate K].
      destruct (arc _ _ _); cbn [bind]; [|intros K; discriminate K].
      intros H. rewrite (IH _ _ H). now rewrite <- app_assoc.
    + cbn [app]. apply IH.
Qed.

End Passes.

(** X6. Whatever the properties, the browser and the canvas are, the
    draw effect never ends with an [IndexSizeError]: the radius handed
    to [createRadialGradient] and to [arc] is [Math.max(8, ...)], which
    is never negative. *)
Theorem draw_never_index_size_error
    (interpolateRdYlGn : number -> string)
    (d3_color : string -> option (Rgb number))
    (props : HeatmapProps number) (window : Browser)
    (canvasRef : option Canvas) :
  Spec.raises (draw interpolateRdYlGn d3_color props window canvasRef)
    IndexSizeError = false.
Proof.
  unfold draw. destruct canvasRef as [canvas|]; [|reflexivity].
  destruct (getContext window); cbn [negb]; [|reflexivity].
  destruct (offscreenGetContext window); cbn [negb]; [|reflexivity].
  pose proof (drawPoints_no_index_error interpolateRdYlGn d3_color props
                (drawWidth props window) (drawHeight props window)
                props.(data) []) as F.
  destruct (drawPoints _ _ _ _ _ _ _) as [drawn|e]; cbn [bind]; [reflexivity|exact F].
Qed.

(** *** What a pass that returns has drawn *)

(** X7. When both contexts are available and the pass returns, the
    splats it has filled are those of the data points for which
    [d3.color] gave a colour, in the order of [data]: one splat at most
    for each point, and each splat that of a point of [data]. *)
Theorem draw_fills_the_coloured_points
    (interpolateRdYlGn : number -> string)
    (d3_color : string -> option (Rgb number))
    (props : HeatmapProps number) (window : Browser)
    (canvas : Canvas) (after : option Canvas) (drawn : list (Splat number)) :
  window.(getContext) = true -> window.(offscreenGetContext) = true ->
  draw interpolateRdYlGn d3_color props window (Some canvas) = Normal (after, drawn) ->
  drawn = Spec.splats interpolateRdYlGn d3_color props
            (drawWidth props window) (drawHeight props window) props.(data)
  /\ (List.length drawn <= List.length props.(data))%nat
  /\ forall s, In s drawn ->
       exists p, In p props.(data)
                 /\ splatOf interpolateRdYlGn d3_color props
                      (drawWidth props window) (drawHeight props window) p = Some s.
Proof.
  intros Hctx Hoff. unfold draw. rewrite Hctx, Hoff. cbn [negb].
  destruct (drawPoints _ _ _ _ _ _ _) as [drawn'|e] eqn:E; cbn [bind];
    [|intros K; discriminate K].
  intros H.
  apply (f_equal (fun c => match c with Normal (_, l) => l | Throw _ => drawn end)) in H.
  cbv beta iota in H. subst drawn'.
  apply drawPoints_normal in E. cbn [app] in E. subst drawn.
  split; [reflexivity|]. unfold Spec.splats. split.
  - generalize props.(data). intros l. induction l as [|p l IH]; [apply le_n|].
    cbn [flat_map List.length]. rewrite length_app.
    destruct (splatOf _ _ _ _ _ p); cbn [List.length]; lia.
  - intros s Hs. apply in_flat_map in Hs. destruct Hs as (p & Hp & Hs).
    exists p. split; [exact Hp|].
    destruct (splatOf _ _ _ _ _ p) as [s'|]; [|contradiction].
    destruct Hs as [->|[]]. reflexivity.
Qed.

Lemma draw_fills_the_coloured_points_witness :
  exists after drawn,
    draw App.green App.parseGreen (App.fixedProps [App.edgeShot])
      (App.browser 500%Z 470%Z) (Some App.freshCanvas) = Normal (after, drawn)
    /\ List.length drawn = 1%nat.
Proof.
  destruct (draw_paintable App.green App.parseGreen
              (App.fixedProps [App.edgeShot]) (App.browser 500%Z 470%Z)
              (Some App.freshCanvas)) as (after & drawn & E).
  { intros p s [<-|[]] Hs. vm_compute in Hs.
    apply (f_equal (fun o => match o with Some s' => paintable s' | None => false end))
      in Hs.
    rewrite <- Hs. vm_compute. reflexivity. }
  exists after, drawn. split; [exact E|].
  destruct (draw_fills_the_coloured_points App.green App.parseGreen
              (App.fixedProps [App.edgeShot]) (App.browser 500%Z 470%Z)
              App.freshCanvas after drawn eq_refl eq_refl E)
    as (-> & _ & _).
  vm_compute. reflexivity.
Defined.

(** *** Nothing of an earlier pass shows through *)



(** *** The pixel size inside [courtDimensions] is not read *)

Lemma splatOf_court_pixels
    (interpolateRdYlGn : number -> string)
    (d3_color : string -> option (Rgb number))
    (props : HeatmapProps number) (d1 d2 : CourtDimensions number)
    (dw dh : number) (p : HeatmapPoint number) :
  d1.(courtLengthFeet) = d2.(courtLengthFeet) ->
  d1.(courtWidthFeet) = d2.(courtWidthFeet) ->
  splatOf interpolateRdYlGn d3_color (Spec.withCourtDimensions props (Some d1)) dw dh p
  = splatOf interpolateRdYlGn d3_color (Spec.withCourtDimensions props (Some d2)) dw dh p.
Proof.
  intros HL HW. unfold splatOf, place. cbn [coordinateSpace courtDimensions
    Spec.withCourtDimensions orDefault]. rewrite HL, HW. reflexivity.
Qed.

(** X9. The [width] and [height] fields of the [courtDimensions]
    property are never read by the draw effect: two records with the
    same court length and width in feet give the same pass, since the
    effect overrides both fields by the drawing size. *)
Theorem draw_ignores_court_pixels
    (interpolateRdYlGn : number -> string)
    (d3_color : string -> option (Rgb number))
    (props : HeatmapProps number) (window : Browser)
    (d1 d2 : CourtDimensions number) (canvasRef : option Canvas) :
  d1.(courtLengthFeet) = d2.(courtLengthFeet) ->
  d1.(courtWidthFeet) = d2.(courtWidthFeet) ->
  draw interpolateRdYlGn d3_color (Spec.withCourtDimensions props (Some d1))
    window canvasRef
  = draw interpolateRdYlGn d3_color (Spec.withCourtDimensions props (Some d2))
      window canvasRef.
Proof.
  intros HL HW. unfold draw.
  destruct canvasRef as [canvas|]; [|reflexivity].
  destruct (getContext window); cbn [negb]; [|reflexivity].
  change (prepare (Spec.withCourtDimensions props (Some d1)) window canvas)
    with (prepare (Spec.withCourtDimensions props (Some d2)) window canvas).
  destruct (offscreenGetContext window); cbn [negb]; [|reflexivity].
  change (drawWidth (Spec.withCourtDimensions props (Some d1)) window)
    with (drawWidth (Spec.withCourtDimensions props (Some d2)) window).
  change (drawHeight (Spec.withCourtDimensions props (Some d1)) window)
    with (drawHeight (Spec.withCourtDimensions props (Some d2)) window).
  change (data (Spec.withCourtDimensions props (Some d1)))
    with (data (Spec.withCourtDimensions props (Some d2))).
  f_equal.
  generalize (drawWidth (Spec.withCourtDimensions props (Some d2)) window)
    (drawHeight (Spec.withCourtDimensions props (Some d2)) window)
    (data (Spec.withCourtDimensions props (Some d2))) (@nil (Splat number)).
  intros dw dh points. induction points as [|p rest IH]; intros drawn;
    cbn [drawPoints]; [reflexivity|].
  rewrite (splatOf_court_pixels interpolateRdYlGn d3_color props d1 d2 dw dh p HL HW).
  destruct (splatOf _ _ _ _ _ p) as [s|]; [|apply IH].
  destruct (fillSplat s drawn); cbn [bind]; [apply IH|reflexivity].
Qed.

Lemma draw_ignores_court_pixels_witness :
  draw App.green App.parseGreen
    (Spec.withCourtDimensions (App.heatmapProps [App.weighted (dec 7 10)])
       (Some App.surface))
    (App.browser 500%Z 470%Z) (Some App.freshCanvas)
  = draw App.green App.parseGreen
      (Spec.withCourtDimensions (App.heatmapProps [App.weighted (dec 7 10)])
         (Some {| CourtCoordinates.width := int 1; CourtCoordinates.height := int 2;
                  courtLengthFeet := int 47; courtWidthFeet := int 50 |}))
      (App.browser 500%Z 470%Z) (Some App.freshCanvas).
Proof.
  apply draw_ignores_court_pixels; reflexivity.
Defined.
(** *** A point of unknown weight *)

(** X10. A point without a weight is drawn as a point at the league
    average: its probability is [avg], its deviation is +0, its radius
    factor is 0.9, its radius is [Math.max(8, radius * 0.9)] and its
    opacity is 0.18, the low end of the emphasis range (the band not
    being NaN, the average and the opacity bound being finite). *)
Theorem unweighted_point_footprint (props : HeatmapProps number) (p : HeatmapPoint number) :
  p.(weight) = None ->
  is_nan (orDefault props.(leagueBand) (dec 2 10)) = false ->
  is_finite (avg props) = true ->
  is_finite (orDefault props.(maxOpacity) (dec 85 100)) = true ->
  prob props p = avg props
  /\ delta props p = S754_zero false
  /\ radiusFactor props p = dec 9 10
  /\ splatRadius props p
     = max (int 8) (fmul (orDefault props.(radius) (int 24)) (dec 9 10))
  /\ emphasisScale props (delta props p) = Some (dec 18 100).
Proof.
  intros Hw Hlb Ha Hmo.
  assert (Hp : prob props p = avg props) by (unfold prob; now rewrite Hw).
  assert (Hd : delta props p = S754_zero false).
  { unfold delta. rewrite Hp. cbn [sub Math_abs arith].
    now rewrite (fsub_self _ Ha). }
  assert (Hf : radiusFactor props p = dec 9 10).
  { unfold radiusFactor. rewrite Hd. cbn [add mul div arith].
    pose proof (band_positive props Hlb) as Hb.
    destruct (band props) as [| | |[] m e]; try discriminate Hb.
    vm_compute. reflexivity. }
  split; [exact Hp|split; [exact Hd|split; [exact Hf|split]]].
  - unfold splatRadius. rewrite Hf. reflexivity.
  - now apply alpha_baseline.
Qed.

Lemma unweighted_point_footprint_witness :
  let props : HeatmapProps number := App.heatmapProps [] in
  let p : HeatmapPoint number :=
    {| pt_x := int 10; pt_y := int 25; weight := None |} in
  splatRadius props p = dec 252 10
  /\ emphasisScale props (delta props p) = Some (dec 18 100).
Proof.
  intros props p.
  assert (H1 : is_nan (orDefault props.(leagueBand) (dec 2 10)) = false)
    by (vm_compute; reflexivity).
  assert (H2 : is_finite (avg props) = true) by (vm_compute; reflexivity).
  assert (H3 : is_finite (orDefault props.(maxOpacity) (dec 85 100)) = true)
    by (vm_compute; reflexivity).
  destruct (unweighted_point_footprint props p eq_refl H1 H2 H3)
    as (_ & _ & _ & Hr & Ha).
  split; [|exact Ha]. rewrite Hr. vm_compute. reflexivity.
Defined.
(** *** The opacity of a splat, read without rounding error *)




(** ** The demo heat-map data *)

Import PlayerHeatmap.

(** *** [Math.max] and [Math.min] as bounds *)

Lemma compare_eq_fle (a b : number) :
  SFcompare a b = Some Eq -> fle a b = true /\ fle b a = true.
Proof.
  intros E. unfold fle, SFleb. rewrite (SFcompare_antisym a b), E.
  split; reflexivity.
Qed.

Lemma compare_number (a b : number) :
  is_nan a = false -> is_nan b = false -> SFcompare a b <> None.
Proof.
  destruct a as [| | |sa ma ea], b as [| | |sb mb eb]; try discriminate;
    intros _ _; cbn; try discriminate.
Qed.

Lemma same_key_fle_l (a a' c : number) :
  is_nan a' = false -> key a = key a' -> fle c a = true -> fle c a' = true.
Proof.
  intros Ha' K H. destruct (fle_is_number _ _ H) as [Hc Ha].
  apply (fle_iff _ _ Hc Ha') . rewrite <- K. now apply (fle_iff _ _ Hc Ha).
Qed.

Lemma same_key_fle_r (a a' c : number) :
  is_nan a' = false -> key a = key a' -> fle a c = true -> fle a' c = true.
Proof.
  intros Ha' K H. destruct (fle_is_number _ _ H) as [Ha Hc].
  apply (fle_iff _ _ Ha' Hc). rewrite <- K. now apply (fle_iff _ _ Ha Hc).
Qed.

Lemma min_spec (a b : number) :
  is_nan a = false -> is_nan b = false ->
  is_nan (min a b) = false
  /\ fle (min a b) a = true /\ fle (min a b) b = true.
Proof.
  intros Ha Hb. unfold min.
  destruct (SFcompare a b) as [[]|] eqn:E.
  - destruct (compare_eq_fle a b E) as [Hab Hba].
    assert (G : forall r, is_nan r = false -> key a = key r ->
                is_nan r = false /\ fle r a = true /\ fle r b = true).
    { intros r Hr K. split; [exact Hr|]. split.
      - apply (same_key_fle_r a r a Hr K), fle_refl, Ha.
      - apply (same_key_fle_r a r b Hr K), Hab. }
    destruct a as [sa| | |], b as [sb| | |]; apply G; first [assumption|reflexivity].
  - split; [exact Ha|]. split; [apply fle_refl, Ha|].
    apply flt_fle, flt_compare, E.
  - split; [exact Hb|]. split; [|apply fle_refl, Hb].
    apply flt_fle, compare_gt_flt, E.
  - exfalso. exact (compare_number a b Ha Hb E).
Qed.

Lemma max_spec (a b : number) :
  is_nan a = false -> is_nan b = false ->
  is_nan (max a b) = false
  /\ fle a (max a b) = true /\ fle b (max a b) = true
  /\ forall c, fle a c = true -> fle b c = true -> fle (max a b) c = true.
Proof.
  intros Ha Hb. unfold max.
  destruct (SFcompare a b) as [[]|] eqn:E.
  - destruct (compare_eq_fle a b E) as [Hab Hba].
    assert (G : forall r, is_nan r = false -> key a = key r ->
                is_nan r = false /\ fle a r = true /\ fle b r = true
                /\ forall c, fle a c = true -> fle b c = true -> fle r c = true).
    { intros r Hr K. split; [exact Hr|]. split; [|split].
      - apply (same_key_fle_l a r a Hr K), fle_refl, Ha.
      - apply (same_key_fle_l a r b Hr K), Hba.
      - intros c Hac _. apply (same_key_fle_r a r c Hr K), Hac. }
    destruct a as [sa| | |], b as [sb| | |]; apply G; first [assumption|reflexivity].
  - split; [exact Hb|]. split; [apply flt_fle, flt_compare, E|].
    split; [apply fle_refl, Hb|]. intros c _ H. exact H.
  - split; [exact Ha|]. split; [apply fle_refl, Ha|].
    split; [apply flt_fle, compare_gt_flt, E|]. intros c H _. exact H.
  - exfalso. exact (compare_number a b Ha Hb E).
Qed.

(** [Math.max(lo, Math.min(hi, v))] lies between the bounds. *)
Lemma clamp_between (lo hi v : number) :
  fle lo hi = true -> is_nan v = false ->
  fle lo (max lo (min hi v)) = true /\ fle (max lo (min hi v)) hi = true.
Proof.
  intros Hlh Hv. destruct (fle_is_number _ _ Hlh) as [Hlo Hhi].
  destruct (min_spec hi v Hhi Hv) as (Hm & Hmh & _).
  destruct (max_spec lo (min hi v) Hlo Hm) as (_ & H1 & _ & H2).
  split; [exact H1|]. now apply H2.
Qed.

(** *** What [addCluster] adds *)

(** X12. [addCluster] keeps the points it is given and appends
    [count] new ones behind them (none when [count] is zero or
    negative); the i-th new point is built from the draws 3i, 3i+1
    and 3i+2 of [Math.random] after the position it started at, and the
    call consumes [3 * count] draws. *)
Theorem addCluster_appends {N : Type} {A : Arith N} (Math_random : nat -> N)
    (points : list (HeatmapPoint N)) (k : nat)
    (centerX centerY spreadX spreadY : N) (count : Z) (baseProb variance : N) :
  addCluster Math_random (points, k) centerX centerY spreadX spreadY count
    baseProb variance
  = (points
       ++ map (fun i => clusterPoint Math_random centerX centerY spreadX spreadY
                          baseProb variance (k + 3 * i))
            (seq 0 (Z.to_nat count)),
     (k + 3 * Z.to_nat count)%nat).
Proof.
  unfold addCluster. generalize (Z.to_nat count). intros n.
  revert points k. induction n as [|n IH]; intros points k.
  - cbn [addClusterLoop seq map]. now rewrite app_nil_r, Nat.mul_0_r, Nat.add_0_r.
  - cbn [addClusterLoop]. rewrite IH. f_equal; [|lia].
    rewrite <- app_assoc. f_equal. cbn [app seq map].
    rewrite Nat.mul_0_r, Nat.add_0_r. f_equal.
    rewrite <- seq_shift, map_map. apply map_ext. intros i.
    f_equal. lia.
Qed.

Section ClusterBounds.

Variable Math_random : nat -> number.
Hypothesis draws : forall n, is_nan (Math_random n) = false.

Variables centerX centerY spreadX spreadY baseProb variance : number.
Hypothesis HcenterX : is_finite centerX = true.
Hypothesis HcenterY : is_finite centerY = true.
Hypothesis HspreadX : positive_finite spreadX = true.
Hypothesis HspreadY : positive_finite spreadY = true.
Hypothesis HbaseProb : is_finite baseProb = true.
Hypothesis Hvariance : positive_finite variance = true.

Lemma jitter_number (centre spread : number) (n : nat) :
  is_finite centre = true -> positive_finite spread = true ->
  is_nan (fadd centre (fmul (fsub (fmul (Math_random n) (int 2)) (int 1)) spread))
  = false.
Proof.
  intros Hc Hs. apply fadd_number; [exact Hc|].
  apply fmul_number; [|exact Hs].
  apply fsub_number; [|vm_compute; reflexivity].
  apply fmul_number; [apply draws|vm_compute; reflexivity].
Qed.

Lemma clusterPoint_onHalfCourt (k : nat) :
  Spec.onHalfCourt (clusterPoint Math_random centerX centerY spreadX spreadY
                 baseProb variance k).
Proof.
  unfold Spec.onHalfCourt, clusterPoint. cbn [pt_x pt_y weight].
  cbn [Math_max Math_min add sub mul arith].
  assert (B47 : fle (int 0) (int 47) = true) by (vm_compute; reflexivity).
  assert (B50 : fle (int 0) (int 50) = true) by (vm_compute; reflexivity).
  assert (Bw : fle (dec 2 10) (dec 7 10) = true) by (vm_compute; reflexivity).
  destruct (clamp_between _ _ _ B47 (jitter_number centerX spreadX k HcenterX HspreadX))
    as [X0 X1].
  destruct (clamp_between _ _ _ B50
              (jitter_number centerY spreadY (k + 1) HcenterY HspreadY))
    as [Y0 Y1].
  destruct (clamp_between _ _ _ Bw
              (jitter_number baseProb variance (k + 2) HbaseProb Hvariance))
    as [W0 W1].
  split.
  - apply isWithinCourtBounds_iff. cbn [x y courtLengthFeet courtWidthFeet App.surface].
    repeat split; assumption.
  - eexists. split; [reflexivity|]. split; assumption.
Qed.

Lemma addCluster_onHalfCourt (arr : Filling) (count : Z) :
  Forall Spec.onHalfCourt (fst arr) ->
  Forall Spec.onHalfCourt
    (fst (addCluster Math_random arr centerX centerY spreadX spreadY count
            baseProb variance)).
Proof.
  destruct arr as [points k]. intros Hall.
  rewrite addCluster_appends. cbn [fst] in *.
  apply Forall_app. split; [exact Hall|].
  apply Forall_forall. intros p Hp. apply in_map_iff in Hp.
  destruct Hp as (i & <- & _). apply clusterPoint_onHalfCourt.
Qed.

End ClusterBounds.

(** X13. On binary64, with draws that are not NaN, finite centres and
    base probability, and positive finite spreads and variance: every
    point [addCluster] adds lies within the bounds of the 47 x 50 ft
    half court and carries a weight between 0.2 and 0.7. *)
Theorem addCluster_adds_points_on_half_court
    (Math_random : nat -> number) (arr : Filling)
    (centerX centerY spreadX spreadY : number) (count : Z)
    (baseProb variance : number) :
  (forall n, is_nan (Math_random n) = false) ->
  is_finite centerX = true -> is_finite centerY = true ->
  positive_finite spreadX = true -> positive_finite spreadY = true ->
  is_finite baseProb = true -> positive_finite variance = true ->
  forall p,
    In p (fst (addCluster Math_random arr centerX centerY spreadX spreadY count
                 baseProb variance)) ->
    In p (fst arr) \/ Spec.onHalfCourt p.
Proof.
  intros draws Hx Hy Sx Sy Hb Hv p. destruct arr as [points k].
  rewrite addCluster_appends. cbn [fst]. intros Hp.
  apply in_app_or in Hp. destruct Hp as [Hp|Hp]; [left; exact Hp|right].
  apply in_map_iff in Hp. destruct Hp as (i & <- & _).
  now apply clusterPoint_onHalfCourt.
Qed.

Lemma addCluster_adds_points_on_half_court_witness :
  Forall Spec.onHalfCourt
    (fst (addCluster (fun _ => dec 5 10) ([], O) (int 34) (int 10)
            (int 6) (int 5) 2 (dec 52 100) (dec 6 100))).
Proof.
  apply Forall_forall. intros p Hp.
  assert (D : forall n : nat, is_nan (dec 5 10 : number) = false)
    by (intros n; vm_compute; reflexivity).
  assert (H1 : is_finite (int 34 : number) = true) by (vm_compute; reflexivity).
  assert (H2 : is_finite (int 10 : number) = true) by (vm_compute; reflexivity).
  assert (H3 : positive_finite (int 6 : number) = true) by (vm_compute; reflexivity).
  assert (H4 : positive_finite (int 5 : number) = true) by (vm_compute; reflexivity).
  assert (H5 : is_finite (dec 52 100 : number) = true) by (vm_compute; reflexivity).
  assert (H6 : positive_finite (dec 6 100 : number) = true)
    by (vm_compute; reflexivity).
  destruct (addCluster_adds_points_on_half_court (fun _ => dec 5 10) ([], O)
              (int 34) (int 10) (int 6) (int 5) 2 (dec 52 100) (dec 6 100)
              D H1 H2 H3 H4 H5 H6 p Hp) as [[]|H].
  exact H.
Defined.

(** *** The clusters of a player *)

Lemma playerHeatmap_size {N : Type} {A : Arith N}
    (Math_random : nat -> N) (selectedPlayer : option string) :
  List.length (playerHeatmap Math_random selectedPlayer)
  = match selectedPlayer with
    | Some player =>
        if String.eqb player "Stephen Curry" then 420%nat
        else if String.eqb player "LeBron James" then 420%nat
        else if String.eqb player "Kevin Durant" then 440%nat
        else 360%nat
    | None => 360%nat
    end.
Proof.
  unfold playerHeatmap. cbv zeta.
  destruct selectedPlayer as [player|];
    [destruct (String.eqb player "Stephen Curry");
     [|destruct (String.eqb player "LeBron James");
       [|destruct (String.eqb player "Kevin Durant")]]|];
    rewrite !addCluster_appends; cbn [fst];
    rewrite !length_app, !length_map, !length_seq; reflexivity.
Qed.

(** X14. Whoever is selected and whatever [Math.random] draws (NaN
    apart), every point of [playerHeatmap] lies within the bounds of
    the half court and has a weight between 0.2 and 0.7; the heat map
    has 420 points for Stephen Curry and for LeBron James, 440 for Kevin
    Durant and 360 for anyone else or no one. *)
Theorem playerHeatmap_on_half_court
    (Math_random : nat -> number) (selectedPlayer : option string) :
  (forall n, is_nan (Math_random n) = false) ->
  Forall Spec.onHalfCourt (playerHeatmap Math_random selectedPlayer)
  /\ List.length (playerHeatmap Math_random selectedPlayer)
     = match selectedPlayer with
       | Some player =>
           if String.eqb player "Stephen Curry" then 420%nat
           else if String.eqb player "LeBron James" then 420%nat
           else if String.eqb player "Kevin Durant" then 440%nat
           else 360%nat
       | None => 360%nat
       end.
Proof.
  intros draws. split; [|apply playerHeatmap_size].
  assert (step : forall arr cx cy sx sy count bp var,
             is_finite cx = true -> is_finite cy = true ->
             positive_finite sx = true -> positive_finite sy = true ->
             is_finite bp = true -> positive_finite var = true ->
             Forall Spec.onHalfCourt (fst arr) ->
             Forall Spec.onHalfCourt
               (fst (addCluster Math_random arr cx cy sx sy count bp var))).
  { intros arr cx cy sx sy count bp var Hx Hy Sx Sy Hb Hv.
    now apply addCluster_onHalfCourt. }
  unfold playerHeatmap. cbv zeta.
  destruct selectedPlayer as [player|];
    [destruct (String.eqb player "Stephen Curry");
     [|destruct (String.eqb player "LeBron James");
       [|destruct (String.eqb player "Kevin Durant")]]|];
    repeat (apply step;
            [vm_compute; reflexivity|vm_compute; reflexivity
            |vm_compute; reflexivity|vm_compute; reflexivity
            |vm_compute; reflexivity|vm_compute; reflexivity|]);
    apply Forall_nil.
Qed.

Lemma playerHeatmap_on_half_court_witness :
  Forall Spec.onHalfCourt
    (playerHeatmap (fun _ => dec 5 10) (Some "LeBron James"%string))
  /\ List.length (playerHeatmap (fun _ => dec 5 10 : number)
                    (Some "LeBron James"%string)) = 420%nat.
Proof.
  apply (playerHeatmap_on_half_court (fun _ => dec 5 10)
           (Some "LeBron James"%string)).
  intros n. vm_compute. reflexivity.
Defined.
(** ** The session statistics *)

Import StatsPanel.

(** *** Grade and footer line *)

Lemma grade_footer_ladder (t40 t50 t60 t70 t80 p : number) :
  fle t40 t50 = true -> fle t50 t60 = true ->
  fle t60 t70 = true -> fle t70 t80 = true ->
  let g : string :=
    (if fle t80 p then "A+" else if fle t70 p then "A"
     else if fle t60 p then "B+" else if fle t50 p then "B"
     else if fle t40 p then "C" else "D")%string in
  let line : string :=
    (if fle t70 p then "ON FIRE!" else if fle t50 p then "KEEP GRINDING!"
     else "ROOM TO IMPROVE!")%string in
  (line = "ON FIRE!"%string <-> g = "A+"%string \/ g = "A"%string)
  /\ (line = "KEEP GRINDING!"%string <-> g = "B+"%string \/ g = "B"%string)
  /\ (line = "ROOM TO IMPROVE!"%string <-> g = "C"%string \/ g = "D"%string).
Proof.
  intros C45 C56 C67 C78 g line. subst g line.
  pose proof (fun H => fle_trans t70 t80 p C78 H) as M8.
  pose proof (fun H => fle_trans t60 t70 p C67 H) as M7.
  pose proof (fun H => fle_trans t50 t60 p C56 H) as M6.
  pose proof (fun H => fle_trans t40 t50 p C45 H) as M5.
  destruct (fle t80 p), (fle t70 p), (fle t60 p), (fle t50 p), (fle t40 p);
    try (specialize (M8 eq_refl); discriminate M8);
    try (specialize (M7 eq_refl); discriminate M7);
    try (specialize (M6 eq_refl); discriminate M6);
    try (specialize (M5 eq_refl); discriminate M5);
    clear M8 M7 M6 M5;
    repeat split; intros K;
    try reflexivity; try discriminate K;
    try (destruct K as [K|K]; discriminate K);
    first [left; reflexivity | right; reflexivity].
Qed.

Lemma grade_rank_ladder (t40 t50 t60 t70 t80 p q : number) :
  fle p q = true ->
  let rank (v : number) : nat :=
    if fle t80 v then 5%nat else if fle t70 v then 4%nat
    else if fle t60 v then 3%nat else if fle t50 v then 2%nat
    else if fle t40 v then 1%nat else 0%nat in
  (rank p <= rank q)%nat.
Proof.
  intros Hpq rank. subst rank. cbv beta.
  pose proof (fun t H => fle_trans t p q H Hpq) as U.
  destruct (fle t80 p) eqn:P8.
  { rewrite (U _ P8). lia. }
  destruct (fle t70 p) eqn:P7.
  { rewrite (U _ P7). destruct (fle t80 q); lia. }
  destruct (fle t60 p) eqn:P6.
  { rewrite (U _ P6). destruct (fle t80 q), (fle t70 q); lia. }
  destruct (fle t50 p) eqn:P5.
  { rewrite (U _ P5). destruct (fle t80 q), (fle t70 q), (fle t60 q); lia. }
  destruct (fle t40 p) eqn:P4.
  { rewrite (U _ P4).
    destruct (fle t80 q), (fle t70 q), (fle t60 q), (fle t50 q); lia. }
  lia.
Qed.

Lemma gradeRank_ladder (v : number) :
  Spec.gradeRank (getPerformanceGrade v).(grade)
  = if fle (int 80) v then 5%nat else if fle (int 70) v then 4%nat
    else if fle (int 60) v then 3%nat else if fle (int 50) v then 2%nat
    else if fle (int 40) v then 1%nat else 0%nat.
Proof.
  unfold getPerformanceGrade. cbn [leb arith].
  generalize (int 40 : number) (int 50 : number) (int 60 : number)
    (int 70 : number) (int 80 : number).
  intros t40 t50 t60 t70 t80.
  destruct (fle t80 v), (fle t70 v), (fle t60 v), (fle t50 v), (fle t40 v);
    reflexivity.
Qed.

(** X15. The grade of the statistics panel and the line under it
    agree on every percentage, NaN included: the line is ON FIRE!
    exactly for the grades A+ and A, KEEP GRINDING! exactly for B+ and
    B, ROOM TO IMPROVE! exactly for C and D.  And the grade never drops
    when the percentage grows. *)
Theorem grade_agrees_with_footer (percentage : number) :
  let g := (getPerformanceGrade percentage).(grade) in
  let line := motivationalText percentage in
  (line = "ON FIRE!"%string <-> g = "A+"%string \/ g = "A"%string)
  /\ (line = "KEEP GRINDING!"%string <-> g = "B+"%string \/ g = "B"%string)
  /\ (line = "ROOM TO IMPROVE!"%string <-> g = "C"%string \/ g = "D"%string)
  /\ forall better : number,
       fle percentage better = true ->
       (Spec.gradeRank g
        <= Spec.gradeRank (getPerformanceGrade better).(grade))%nat.
Proof.
  assert (C45 : fle (int 40) (int 50) = true) by (vm_compute; reflexivity).
  assert (C56 : fle (int 50) (int 60) = true) by (vm_compute; reflexivity).
  assert (C67 : fle (int 60) (int 70) = true) by (vm_compute; reflexivity).
  assert (C78 : fle (int 70) (int 80) = true) by (vm_compute; reflexivity).
  pose proof (grade_footer_ladder (int 40) (int 50) (int 60) (int 70) (int 80)
                percentage C45 C56 C67 C78) as L.
  clear C45 C56 C67 C78. cbv zeta in L.
  destruct L as (L1 & L2 & L3).
  cbv zeta. split; [|split; [|split]].
  - revert L1. unfold getPerformanceGrade, motivationalText. cbn [leb arith].
    generalize (int 40 : number) (int 50 : number) (int 60 : number)
      (int 70 : number) (int 80 : number). intros t40 t50 t60 t70 t80.
    destruct (fle t80 percentage), (fle t70 percentage), (fle t60 percentage),
      (fle t50 percentage), (fle t40 percentage); exact (fun L => L).
  - revert L2. unfold getPerformanceGrade, motivationalText. cbn [leb arith].
    generalize (int 40 : number) (int 50 : number) (int 60 : number)
      (int 70 : number) (int 80 : number). intros t40 t50 t60 t70 t80.
    destruct (fle t80 percentage), (fle t70 percentage), (fle t60 percentage),
      (fle t50 percentage), (fle t40 percentage); exact (fun L => L).
  - revert L3. unfold getPerformanceGrade, motivationalText. cbn [leb arith].
    generalize (int 40 : number) (int 50 : number) (int 60 : number)
      (int 70 : number) (int 80 : number). intros t40 t50 t60 t70 t80.
    destruct (fle t80 percentage), (fle t70 percentage), (fle t60 percentage),
      (fle t50 percentage), (fle t40 percentage); exact (fun L => L).
  - intros better Hb. rewrite !gradeRank_ladder.
    exact (grade_rank_ladder (int 40) (int 50) (int 60) (int 70) (int 80)
             percentage better Hb).
Qed.

Lemma grade_agrees_with_footer_witness :
  (Spec.gradeRank (getPerformanceGrade (int 55 : number)).(grade)
   <= Spec.gradeRank (getPerformanceGrade (int 72 : number)).(grade))%nat
  /\ motivationalText (S754_nan : number) = "ROOM TO IMPROVE!"%string.
Proof.
  destruct (grade_agrees_with_footer (int 55)) as (_ & _ & _ & M).
  destruct (grade_agrees_with_footer S754_nan) as (_ & _ & L & _).
  split.
  - apply M. vm_compute. reflexivity.
  - apply L. right. vm_compute. reflexivity.
Defined.
(** *** The shooting percentage *)

(** X16. The shooting percentage.  On binary64 it is never NaN when
    [madeShots] is finite, and it is 0 whenever [totalShots] is not
    above 0 (NaN included), so no division by zero shows.  Read without
    rounding error, with [0 <= madeShots <= totalShots], it is a whole
    number between 0 and 100. *)
Theorem shootingPercentage_is_a_percentage :
  (forall stats : SessionStats number,
     is_finite stats.(madeShots) = true ->
     is_nan (shootingPercentage stats) = false)
  /\ (forall stats : SessionStats number,
        flt (int 0) stats.(totalShots) = false ->
        shootingPercentage stats = int 0)
  /\ (forall stats : SessionStats Q,
        (0 <= stats.(madeShots) <= stats.(totalShots))%Q ->
        (0 <= shootingPercentage stats <= 100)%Q
        /\ exists n : Z, shootingPercentage stats = inject_Z n).
Proof.
  split; [|split].
  - intros stats Hm. unfold shootingPercentage. cbn [ltb arith].
    destruct (flt (int 0) stats.(totalShots)) eqn:E; [|vm_compute; reflexivity].
    cbn [Math_round mul div arith]. apply round_number.
    apply fmul_number; [|vm_compute; reflexivity].
    destruct stats.(totalShots) as [s|[]| |[] m e];
      try (vm_compute in E; discriminate E).
    + destruct stats.(madeShots) as [[]|[]| |sm mm em];
        try discriminate Hm; reflexivity.
    + apply fdiv_number; [|reflexivity].
      destruct stats.(madeShots); try discriminate Hm; reflexivity.
  - intros stats E. unfold shootingPercentage. cbn [ltb arith]. now rewrite E.
  - intros stats [H0 H1]. unfold shootingPercentage.
    cbn [ltb Math_round mul div Exact.arith].
    change (int 0 : Q) with 0%Q. change (int 100 : Q) with (100 # 1)%Q.
    destruct (Qle_bool stats.(totalShots) 0) eqn:E; cbn [negb].
    + split; [lra|]. now exists 0%Z.
    + apply Qle_bool_false_lt in E. split; [|eexists; reflexivity].
      destruct (ratio_in_unit _ _ E H0 H1) as [U0 U1].
      set (u := (stats.(madeShots) / stats.(totalShots))%Q) in *. clearbody u.
      destruct (round_exact_between 0 100 (u * (100 # 1))%Q) as [R0 R1].
      * change (inject_Z 0) with 0%Q. lra.
      * change (inject_Z 100) with (100 # 1)%Q. lra.
      * cbn [Math_round Exact.arith] in R0, R1.
        change (inject_Z 0) with 0%Q in R0.
        change (inject_Z 100) with (100 # 1)%Q in R1.
        split; [exact R0|]. lra.
Qed.

Lemma shootingPercentage_is_a_percentage_witness :
  is_nan (shootingPercentage (AppComponent.initialStats (N:=number))) = false
  /\ shootingPercentage (AppComponent.initialStats (N:=number)) = int 0
  /\ (0 <= shootingPercentage
             {| totalShots := 8; madeShots := 3; bestStreak := 2;
                currentStreak := 0; favoritePlayer := ""; favoriteZone := "" |}
        <= 100)%Q.
Proof.
  destruct shootingPercentage_is_a_percentage as (H1 & H2 & H3).
  split; [|split].
  - apply H1. vm_compute. reflexivity.
  - apply H2. vm_compute. reflexivity.
  - apply H3. cbn [madeShots totalShots]. split; evaluate.
Defined.
(** ** Whole numbers in binary64

    The counters of the session are whole numbers; below 2^53 binary64
    holds them, adds them and compares them without error. *)

Lemma digits2_bounds (p : positive) :
  (2 ^ (Z.pos (digits2_pos p) - 1) <= Z.pos p < 2 ^ Z.pos (digits2_pos p))%Z.
Proof.
  induction p as [p IH|p IH|]; cbn [digits2_pos].
  - rewrite Pos2Z.inj_succ.
    replace (Z.succ (Z.pos (digits2_pos p)) - 1)%Z
      with (Z.succ (Z.pos (digits2_pos p) - 1))%Z by lia.
    rewrite !Z.pow_succ_r by lia. lia.
  - rewrite Pos2Z.inj_succ.
    replace (Z.succ (Z.pos (digits2_pos p)) - 1)%Z
      with (Z.succ (Z.pos (digits2_pos p) - 1))%Z by lia.
    rewrite !Z.pow_succ_r by lia. lia.
  - cbn. lia.
Qed.

Lemma digits2_unique (p : positive) (d : Z) :
  (2 ^ (d - 1) <= Z.pos p < 2 ^ d)%Z -> (1 <= d)%Z -> Z.pos (digits2_pos p) = d.
Proof.
  intros [Hlo Hhi] Hd. destruct (digits2_bounds p) as [Glo Ghi].
  set (d' := Z.pos (digits2_pos p)) in *.
  assert (Hd' : (1 <= d')%Z) by (subst d'; lia). clearbody d'.
  destruct (Z.lt_trichotomy d' d) as [L|[E|G]]; [exfalso|exact E|exfalso].
  - assert (K : (2 ^ d' <= 2 ^ (d - 1))%Z) by (apply Z.pow_le_mono_r; lia). lia.
  - assert (K : (2 ^ d <= 2 ^ (d' - 1))%Z) by (apply Z.pow_le_mono_r; lia). lia.
Qed.

Lemma digits2_scaled (n P : positive) (k : Z) :
  (0 <= k)%Z -> Z.pos P = (Z.pos n * 2 ^ k)%Z ->
  Z.pos (digits2_pos P) = (Z.pos (digits2_pos n) + k)%Z.
Proof.
  intros Hk HP. destruct (digits2_bounds n) as [Glo Ghi].
  apply digits2_unique; [|lia]. rewrite HP.
  replace (Z.pos (digits2_pos n) + k - 1)%Z
    with (Z.pos (digits2_pos n) - 1 + k)%Z by lia.
  rewrite !Z.pow_add_r by lia.
  assert (0 < 2 ^ k)%Z by (apply Z.pow_pos_nonneg; lia). nia.
Qed.

Lemma iter_pos_nat {A : Type} (f : A -> A) (p : positive) (a : A) :
  iter_pos f p a = Nat.iter (Pos.to_nat p) f a.
Proof.
  revert a. induction p as [p IH|p IH|]; intros a; cbn [iter_pos].
  - rewrite !IH, Pos2Nat.inj_xI.
    replace (S (2 * Pos.to_nat p)) with (Pos.to_nat p + Pos.to_nat p + 1)%nat by lia.
    rewrite !Nat.iter_add. reflexivity.
  - rewrite !IH, Pos2Nat.inj_xO.
    replace (2 * Pos.to_nat p)%nat with (Pos.to_nat p + Pos.to_nat p)%nat by lia.
    rewrite Nat.iter_add. reflexivity.
  - reflexivity.
Qed.

(** Shifting out zeros is exact. *)
Lemma shr_zeros (j : nat) (M : positive) (m : Z) :
  m = (Z.pos M * 2 ^ Z.of_nat j)%Z ->
  Nat.iter j shr_1 {| shr_m := m; shr_r := false; shr_s := false |}
  = {| shr_m := Z.pos M; shr_r := false; shr_s := false |}.
Proof.
  revert m. induction j as [|j IH]; intros m Hm.
  - cbn. rewrite Hm. f_equal. cbn. lia.
  - rewrite Nat.iter_succ_r. rewrite Nat2Z.inj_succ, Z.pow_succ_r in Hm by lia.
    assert (E : shr_1 {| shr_m := m; shr_r := false; shr_s := false |}
                = {| shr_m := Z.pos M * 2 ^ Z.of_nat j;
                     shr_r := false; shr_s := false |}).
    { assert (P : (0 < Z.pos M * 2 ^ Z.of_nat j)%Z)
        by (apply Z.mul_pos_pos; [lia|apply Z.pow_pos_nonneg; lia]).
      destruct (Z.pos M * 2 ^ Z.of_nat j)%Z as [|q|q] eqn:Eq; try lia.
      assert (Hm' : m = Z.pos q~0) by lia.
      rewrite Hm'. reflexivity. }
    rewrite E. apply IH. reflexivity.
Qed.

(** Shifting in zeros. *)
Lemma iter_xO_nat (m : positive) (j : nat) :
  Z.pos (Nat.iter j xO m) = (Z.pos m * 2 ^ Z.of_nat j)%Z.
Proof.
  induction j as [|j IH].
  - cbn. lia.
  - rewrite Nat.iter_succ, Pos2Z.inj_xO, IH, Nat2Z.inj_succ, Z.pow_succ_r by lia.
    lia.
Qed.

Lemma iter_xO_value (m d : positive) :
  Z.pos (Pos.iter xO m d) = (Z.pos m * 2 ^ Z.pos d)%Z.
Proof.
  rewrite Pos2Nat.inj_iter, <- (positive_nat_Z d).
  exact (iter_xO_nat m (Pos.to_nat d)).
Qed.

(** Rounding leaves a canonical mantissa alone. *)
Lemma round_aux_canonical (s : bool) (m : positive) (e : Z) :
  wf (S754_finite s m e) ->
  binary_round_aux prec emax s (Z.pos m) e loc_Exact = S754_finite s m e.
Proof.
  intros Hwf. destruct (wf_finite s m e Hwf) as [Hc Hb].
  unfold binary_round_aux, shr_fexp. cbn [Zdigits2].
  rewrite Hc, Z.sub_diag.
  cbn [shr shr_record_of_loc shr_m loc_of_shr_record round_nearest_even Zdigits2].
  rewrite Hc, Z.sub_diag. cbn [shr shr_record_of_loc shr_m].
  apply Z.leb_le in Hb. now rewrite Hb.
Qed.

Lemma fexp_small (d : Z) : (-1021 <= d)%Z -> fexp prec emax d = (d - 53)%Z.
Proof. intros H. unfold fexp, emin, prec, emax. lia. Qed.

(** The double of a whole number below 2^53, however its mantissa is
    first written. *)
Lemma binary_round_whole (s : bool) (n P M : positive) (k : Z) :
  (Z.pos n < 2 ^ 53)%Z -> (0 <= k)%Z ->
  Z.pos P = (Z.pos n * 2 ^ k)%Z ->
  Z.pos M = (Z.pos n * 2 ^ (53 - Z.pos (digits2_pos n)))%Z ->
  binary_round prec emax s P (- k)
  = S754_finite s M (Z.pos (digits2_pos n) - 53).
Proof.
  intros Hn Hk HP HM.
  destruct (digits2_bounds n) as [Glo Ghi].
  set (d := Z.pos (digits2_pos n)) in *.
  assert (Hd1 : (1 <= d)%Z) by (subst d; lia).
  assert (Hd53 : (d <= 53)%Z).
  { destruct (Z.le_gt_cases d 53) as [L|G]; [exact L|exfalso].
    assert (K : (2 ^ 53 <= 2 ^ (d - 1))%Z) by (apply Z.pow_le_mono_r; lia). lia. }
  assert (DM : Z.pos (digits2_pos M) = 53%Z).
  { pose proof (digits2_scaled n M (53 - d) ltac:(lia) HM) as DM.
    fold d in DM. lia. }
  assert (WM : wf (S754_finite s M (d - 53))).
  { unfold wf, valid_binary, bounded, canonical_mantissa.
    rewrite DM. replace (53 + (d - 53))%Z with d by lia.
    rewrite fexp_small by lia. apply andb_true_intro. split.
    - apply Z.eqb_eq. reflexivity.
    - apply Z.leb_le. unfold emax, prec. lia. }
  unfold binary_round.
  rewrite (digits2_scaled n P k Hk HP). fold d.
  replace (d + k + - k)%Z with d by lia. rewrite fexp_small by lia.
  unfold shl_align.
  destruct (d - 53 - - k)%Z as [|j|j] eqn:Ej.
  - (* already aligned *)
    assert (E : P = M).
    { apply Pos2Z.inj. rewrite HP, HM. f_equal. f_equal. lia. }
    subst P. replace (- k)%Z with (d - 53)%Z by lia.
    now apply round_aux_canonical.
  - (* zeros to shift out *)
    unfold binary_round_aux, shr_fexp. cbn [Zdigits2].
    rewrite (digits2_scaled n P k Hk HP). fold d.
    replace (d + k + - k)%Z with d by lia. rewrite fexp_small by lia.
    rewrite Ej. cbn [shr shr_record_of_loc].
    rewrite iter_pos_nat.
    rewrite (shr_zeros (Pos.to_nat j) M (Z.pos P)).
    2:{ rewrite positive_nat_Z, HP, HM, <- Z.mul_assoc, <- Z.pow_add_r by lia.
        f_equal. f_equal. lia. }
    cbn [shr_m loc_of_shr_record round_nearest_even Zdigits2].
    rewrite DM. replace (- k + Z.pos j)%Z with (d - 53)%Z by lia.
    replace (53 + (d - 53))%Z with d by lia.
    rewrite fexp_small by lia. rewrite Z.sub_diag.
    cbn [shr shr_record_of_loc shr_m].
    replace (d - 53 <=? emax - prec)%Z with true; [reflexivity|].
    symmetry. apply Z.leb_le. unfold emax, prec. lia.
  - (* zeros to shift in *)
    assert (E : Pos.iter xO P j = M).
    { apply Pos2Z.inj. rewrite iter_xO_value, HP, HM.
      rewrite <- Z.mul_assoc, <- Z.pow_add_r by lia.
      f_equal. f_equal. lia. }
    rewrite E. now apply round_aux_canonical.
Qed.

(** The double of a positive whole number below 2^53. *)
Lemma of_Z_pos (n : positive) :
  (Z.pos n < 2 ^ 53)%Z ->
  exists M : positive,
    Z.pos M = (Z.pos n * 2 ^ (53 - Z.pos (digits2_pos n)))%Z
    /\ of_Z (Z.pos n) = S754_finite false M (Z.pos (digits2_pos n) - 53).
Proof.
  intros Hn.
  assert (Hpos : (0 < Z.pos n * 2 ^ (53 - Z.pos (digits2_pos n)))%Z).
  { apply Z.mul_pos_pos; [lia|]. apply Z.pow_pos_nonneg; [lia|].
    destruct (digits2_bounds n) as [Glo _].
    destruct (Z.le_gt_cases (Z.pos (digits2_pos n)) 53) as [L|G]; [lia|exfalso].
    assert (K : (2 ^ 53 <= 2 ^ (Z.pos (digits2_pos n) - 1))%Z)
      by (apply Z.pow_le_mono_r; lia).
    lia. }
  destruct (Z.pos n * 2 ^ (53 - Z.pos (digits2_pos n)))%Z as [|M|M] eqn:EM;
    try lia.
  exists M. split; [reflexivity|].
  unfold of_Z. cbn [binary_normalize].
  change 0%Z with (- 0)%Z at 1.
  apply (binary_round_whole false n n M 0 Hn); [lia|lia|].
  now rewrite EM.
Qed.

Lemma shl_align_value (m : positive) (e e' : Z) :
  (e' <= e)%Z ->
  Z.pos (fst (shl_align m e e')) = (Z.pos m * 2 ^ (e - e'))%Z
  /\ snd (shl_align m e e') = e'.
Proof.
  intros H. unfold shl_align.
  destruct (e' - e)%Z as [|j|j] eqn:E; cbn [fst snd]; try lia.
  - replace (e - e')%Z with 0%Z by lia. split; lia.
  - rewrite iter_xO_value. split; [|reflexivity]. f_equal. f_equal. lia.
Qed.

(** Whole numbers add without error. *)
Lemma fadd_of_Z (a b : Z) :
  (0 <= a)%Z -> (0 <= b)%Z -> (a + b < 2 ^ 53)%Z ->
  fadd (of_Z a) (of_Z b) = of_Z (a + b).
Proof.
  intros Ha Hb Hab.
  destruct a as [|a|a]; [|clear Ha|lia].
  { rewrite Z.add_0_l. destruct b as [|b|b]; [reflexivity| |lia].
    destruct (of_Z_pos b ltac:(lia)) as (M & _ & ->). reflexivity. }
  destruct b as [|b|b]; [|clear Hb|lia].
  { rewrite Z.add_0_r. destruct (of_Z_pos a ltac:(lia)) as (M & _ & ->).
    reflexivity. }
  destruct (of_Z_pos a ltac:(lia)) as (Ma & HMa & ->).
  destruct (of_Z_pos b ltac:(lia)) as (Mb & HMb & ->).
  change (Z.pos a + Z.pos b)%Z with (Z.pos (a + b)).
  destruct (of_Z_pos (a + b) Hab) as (Mc & HMc & ->).
  destruct (digits2_bounds a) as [Alo Ahi].
  destruct (digits2_bounds b) as [Blo Bhi].
  set (da := Z.pos (digits2_pos a)) in *.
  set (db := Z.pos (digits2_pos b)) in *.
  assert (Hda : (da <= 53)%Z).
  { destruct (Z.le_gt_cases da 53) as [L|G]; [exact L|exfalso].
    assert (K : (2 ^ 53 <= 2 ^ (da - 1))%Z) by (apply Z.pow_le_mono_r; lia).
    lia. }
  assert (Hdb : (db <= 53)%Z).
  { destruct (Z.le_gt_cases db 53) as [L|G]; [exact L|exfalso].
    assert (K : (2 ^ 53 <= 2 ^ (db - 1))%Z) by (apply Z.pow_le_mono_r; lia).
    lia. }
  unfold fadd, SFadd. cbn [cond_Zopp].
  set (ez := Z.min (da - 53) (db - 53)).
  destruct (shl_align_value Ma (da - 53) ez ltac:(subst ez; lia)) as [Va _].
  destruct (shl_align_value Mb (db - 53) ez ltac:(subst ez; lia)) as [Vb _].
  set (Pa := fst (shl_align Ma (da - 53) ez)) in *.
  set (Pb := fst (shl_align Mb (db - 53) ez)) in *.
  change (Z.pos Pa + Z.pos Pb)%Z with (Z.pos (Pa + Pb)).
  cbn [binary_normalize].
  replace ez with (- (- ez))%Z at 1 by lia.
  apply (binary_round_whole false (a + b) (Pa + Pb) Mc (- ez) Hab);
    [subst ez; lia| |exact HMc].
  rewrite Pos2Z.inj_add, Va, Vb, HMa, HMb, Pos2Z.inj_add.
  rewrite <- !Z.mul_assoc, <- !Z.pow_add_r by (subst ez; lia).
  replace (53 - da + (da - 53 - ez))%Z with (- ez)%Z by lia.
  replace (53 - db + (db - 53 - ez))%Z with (- ez)%Z by lia.
  lia.
Qed.

(** Whole numbers compare as they are. *)
Lemma compare_of_Z (a b : Z) :
  (0 <= a < 2 ^ 53)%Z -> (0 <= b < 2 ^ 53)%Z ->
  SFcompare (of_Z a) (of_Z b) = Some (a ?= b)%Z.
Proof.
  intros [Ha Ha'] [Hb Hb'].
  destruct a as [|a|a]; [|clear Ha|lia].
  { destruct b as [|b|b]; [reflexivity| |lia].
    destruct (of_Z_pos b Hb') as (M & _ & ->). reflexivity. }
  destruct b as [|b|b]; [|clear Hb|lia].
  { destruct (of_Z_pos a Ha') as (M & _ & ->). reflexivity. }
  destruct (of_Z_pos a Ha') as (Ma & HMa & ->).
  destruct (of_Z_pos b Hb') as (Mb & HMb & ->).
  destruct (digits2_bounds a) as [Alo Ahi].
  destruct (digits2_bounds b) as [Blo Bhi].
  set (da := Z.pos (digits2_pos a)) in *.
  set (db := Z.pos (digits2_pos b)) in *.
  cbn [SFcompare]. f_equal.
  destruct (Z.compare_spec (da - 53) (db - 53)) as [E|L|G].
  - change (Pos.compare_cont Eq Ma Mb) with (Z.pos Ma ?= Z.pos Mb)%Z.
    rewrite HMa, HMb. replace db with da by lia.
    symmetry. apply Zmult_compare_compat_r, Z.lt_gt.
    apply Z.pow_pos_nonneg; [lia|].
    destruct (Z.le_gt_cases da 53) as [L|G]; [lia|exfalso].
    assert (K : (2 ^ 53 <= 2 ^ (da - 1))%Z) by (apply Z.pow_le_mono_r; lia).
    lia.
  - symmetry. apply Z.compare_lt_iff.
    assert (K : (2 ^ da <= 2 ^ (db - 1))%Z) by (apply Z.pow_le_mono_r; lia).
    lia.
  - symmetry. apply Z.compare_gt_iff.
    assert (K : (2 ^ db <= 2 ^ (da - 1))%Z) by (apply Z.pow_le_mono_r; lia).
    lia.
Qed.

Lemma max_of_Z (a b : Z) :
  (0 <= a < 2 ^ 53)%Z -> (0 <= b < 2 ^ 53)%Z ->
  max (of_Z a) (of_Z b) = of_Z (Z.max a b).
Proof.
  intros Ha Hb. unfold max. rewrite (compare_of_Z a b Ha Hb).
  destruct (Z.compare_spec a b) as [E|L|G].
  - subst b. rewrite Z.max_id.
    destruct (of_Z a) as [[]| | |]; reflexivity.
  - now rewrite Z.max_r by lia.
  - now rewrite Z.max_l by lia.
Qed.

Lemma fle_of_Z (a b : Z) :
  (0 <= a < 2 ^ 53)%Z -> (0 <= b < 2 ^ 53)%Z ->
  fle (of_Z a) (of_Z b) = (a <=? b)%Z.
Proof.
  intros Ha Hb. unfold fle, SFleb. rewrite (compare_of_Z a b Ha Hb).
  unfold Z.leb. destruct (a ?= b)%Z; reflexivity.
Qed.
(** *** The counters of a session *)

Lemma leadingMakes_snoc (shots : list bool) (made : bool) :
  Spec.leadingMakes (shots ++ [made])
  = if forallb (fun m => m) shots
    then (Z.of_nat (List.length shots) + if made then 1 else 0)%Z
    else Spec.leadingMakes shots.
Proof.
  induction shots as [|[] rest IH]; cbn [app Spec.leadingMakes forallb List.length andb].
  - destruct made; reflexivity.
  - rewrite IH, Nat2Z.inj_succ. destruct (forallb _ rest); lia.
  - reflexivity.
Qed.

Lemma leadingMakes_all (shots : list bool) :
  forallb (fun m => m) shots = true ->
  Spec.leadingMakes shots = Z.of_nat (List.length shots).
Proof.
  induction shots as [|[] rest IH]; cbn [Spec.leadingMakes forallb List.length andb];
    intros H; [reflexivity| |discriminate H].
  rewrite (IH H), Nat2Z.inj_succ. lia.
Qed.

Lemma forallb_rev {A : Type} (f : A -> bool) (l : list A) :
  forallb f (rev l) = forallb f l.
Proof.
  induction l as [|a l IH]; [reflexivity|].
  cbn [rev forallb]. rewrite forallb_app, IH. cbn [forallb].
  destruct (f a), (forallb f l); reflexivity.
Qed.

Lemma trailingMakes_snoc (shots : list bool) (made : bool) :
  Spec.trailingMakes (shots ++ [made])
  = if made then (1 + Spec.trailingMakes shots)%Z else 0%Z.
Proof.
  unfold Spec.trailingMakes. rewrite rev_app_distr. cbn [rev app].
  destruct made; reflexivity.
Qed.

Lemma trailingMakes_cons (made : bool) (shots : list bool) :
  Spec.trailingMakes (made :: shots)
  = if forallb (fun m => m) shots
    then (Z.of_nat (List.length shots) + if made then 1 else 0)%Z
    else Spec.trailingMakes shots.
Proof.
  unfold Spec.trailingMakes. cbn [rev].
  now rewrite leadingMakes_snoc, forallb_rev, length_rev.
Qed.

Lemma longestRun_snoc (shots : list bool) (made : bool) :
  Spec.longestRun (shots ++ [made])
  = if made then Z.max (Spec.longestRun shots) (Spec.trailingMakes shots + 1)
    else Spec.longestRun shots.
Proof.
  induction shots as [|a rest IH].
  - destruct made; reflexivity.
  - change ((a :: rest) ++ [made]) with (a :: (rest ++ [made])).
    cbn [Spec.longestRun]. rewrite IH.
    change (a :: rest ++ [made]) with ((a :: rest) ++ [made]).
    rewrite leadingMakes_snoc, trailingMakes_cons.
    cbn [forallb List.length].
    pose proof (leadingMakes_all rest) as Hall.
    assert (Htr : forallb (fun m => m) rest = true ->
                  Spec.trailingMakes rest = Z.of_nat (List.length rest)).
    { intros H. unfold Spec.trailingMakes.
      rewrite leadingMakes_all, length_rev; [reflexivity|].
      now rewrite forallb_rev. }
    cbn [Spec.leadingMakes].
    destruct made, a, (forallb (fun m => m) rest); cbn [andb];
      try rewrite (Hall eq_refl); try rewrite (Htr eq_refl);
      rewrite ?Nat2Z.inj_succ; lia.
Qed.

Lemma makes_snoc (shots : list bool) (made : bool) :
  Spec.makes (shots ++ [made])
  = (Spec.makes shots + if made then 1 else 0)%Z.
Proof.
  unfold Spec.makes. rewrite filter_app, length_app, Nat2Z.inj_add.
  destruct made; reflexivity.
Qed.

Lemma trailingMakes_range (shots : list bool) :
  (0 <= Spec.trailingMakes shots <= Spec.longestRun shots)%Z
  /\ (Spec.longestRun shots <= Spec.makes shots
      <= Z.of_nat (List.length shots))%Z.
Proof.
  induction shots as [|made shots IH] using rev_ind; [cbn; lia|].
  rewrite trailingMakes_snoc, longestRun_snoc, makes_snoc, length_app.
  cbn [List.length]. rewrite Nat2Z.inj_add. destruct made; lia.
Qed.

(** X17. Folding [updateSessionStats] over fewer than 2^53 reports,
    starting from the initial statistics, counts exactly on binary64:
    [totalShots] is the number of reports, [madeShots] the number of
    makes, [currentStreak] the run of makes at the end and [bestStreak]
    the longest run of makes; hence
    [currentStreak <= bestStreak <= madeShots <= totalShots]. *)
Theorem session_counts (reports : list (bool * string * string)) :
  (Z.of_nat (List.length reports) < 2 ^ 53)%Z ->
  let shots := map (fun report => fst (fst report)) reports in
  let stats := AppComponent.session (N:=number) reports in
  stats.(totalShots) = of_Z (Z.of_nat (List.length reports))
  /\ stats.(madeShots) = of_Z (Spec.makes shots)
  /\ stats.(currentStreak) = of_Z (Spec.trailingMakes shots)
  /\ stats.(bestStreak) = of_Z (Spec.longestRun shots)
  /\ fle stats.(currentStreak) stats.(bestStreak) = true
  /\ fle stats.(bestStreak) stats.(madeShots) = true
  /\ fle stats.(madeShots) stats.(totalShots) = true.
Proof.
  intros Hlen shots stats.
  assert (Core : stats.(totalShots) = of_Z (Z.of_nat (List.length reports))
                 /\ stats.(madeShots) = of_Z (Spec.makes shots)
                 /\ stats.(currentStreak) = of_Z (Spec.trailingMakes shots)
                 /\ stats.(bestStreak) = of_Z (Spec.longestRun shots)).
  { subst shots stats. revert Hlen.
    induction reports as [|[[made player] zone] reports IH] using rev_ind;
      intros Hlen.
    - cbn. repeat split; vm_compute; reflexivity.
    - rewrite length_app in Hlen. cbn [List.length] in Hlen.
      rewrite Nat2Z.inj_add in Hlen.
      destruct (IH ltac:(lia)) as (H1 & H2 & H3 & H4). clear IH.
      unfold AppComponent.session in *. rewrite fold_left_app.
      cbn [fold_left]. rewrite map_app. cbn [map fst].
      destruct (trailingMakes_range (map (fun report => fst (fst report)) reports))
        as [[R0 R1] [R2 R3]].
      rewrite length_map in R3.
      generalize dependent (fold_left
        (fun prev '(shotMade, player0, zone0) =>
           AppComponent.updateSessionStats shotMade player0 zone0 prev)
        reports (AppComponent.initialStats (N:=number))).
      intros prev H1 H2 H3 H4.
      unfold AppComponent.updateSessionStats.
      cbn [totalShots madeShots currentStreak bestStreak add Math_max arith].
      rewrite H1, H2, H3, H4.
      assert (E1 : (int 1 : number) = of_Z 1) by (vm_compute; reflexivity).
      assert (E0 : (int 0 : number) = of_Z 0) by (vm_compute; reflexivity).
      rewrite E1, E0. clear E1 E0.
      rewrite length_app, Nat2Z.inj_add.
      rewrite makes_snoc, trailingMakes_snoc, longestRun_snoc.
      cbn [List.length].
      split; [apply fadd_of_Z; lia|].
      destruct made.
      + rewrite !fadd_of_Z by lia. rewrite max_of_Z by lia.
        repeat split; f_equal; lia.
      + rewrite !fadd_of_Z by lia. repeat split; f_equal; lia. }
  destruct Core as (H1 & H2 & H3 & H4).
  split; [exact H1|split; [exact H2|split; [exact H3|split; [exact H4|]]]].
  rewrite H1, H2, H3, H4.
  destruct (trailingMakes_range shots) as [[R0 R1] [R2 R3]].
  subst shots. rewrite length_map in R3.
  rewrite !fle_of_Z by lia.
  repeat split; apply Z.leb_le; lia.
Qed.

Lemma session_counts_witness :
  let stats :=
    AppComponent.session (N:=number)
      [(true, "Stephen Curry", "Above the Break 3");
       (true, "Stephen Curry", "Mid-Range");
       (false, "LeBron James", "Restricted Area");
       (true, "LeBron James", "Mid-Range")]%string in
  stats.(totalShots) = of_Z 4 /\ stats.(madeShots) = of_Z 3
  /\ stats.(currentStreak) = of_Z 1 /\ stats.(bestStreak) = of_Z 2.
Proof.
  intros stats.
  destruct (session_counts
              [(true, "Stephen Curry", "Above the Break 3");
               (true, "Stephen Curry", "Mid-Range");
               (false, "LeBron James", "Restricted Area");
               (true, "LeBron James", "Mid-Range")]%string)
    as (H1 & H2 & H3 & H4 & _).
  { vm_compute. reflexivity. }
  repeat split; assumption.
Defined.
(** ** The player selector *)

Section Selector.

Variable Unit : Type.
Variable unit_eqb : Unit -> Unit -> bool.
Variable space : Unit.

Hypothesis unit_eqb_eq : forall a b, unit_eqb a b = true <-> a = b.

Local Abbreviation Str := (list Unit).
Local Abbreviation split := (PlayerSelector.split unit_eqb space).
Local Abbreviation getPlayerInitials := (PlayerSelector.getPlayerInitials unit_eqb space).
Local Abbreviation str_eqb := (PlayerSelector.str_eqb unit_eqb).
Local Abbreviation startsWith := (PlayerSelector.startsWith unit_eqb).
Local Abbreviation includes := (PlayerSelector.includes unit_eqb).
Local Abbreviation indexOf := (PlayerSelector.indexOf unit_eqb).
Local Abbreviation getPlayerTeamColor := (PlayerSelector.getPlayerTeamColor unit_eqb).

Lemma unit_eqb_refl (a : Unit) : unit_eqb a a = true.
Proof. now apply unit_eqb_eq. Qed.

Lemma str_eqb_eq (s t : Str) : str_eqb s t = true <-> s = t.
Proof.
  revert t. induction s as [|c s IH]; intros [|d t]; cbn [PlayerSelector.str_eqb];
    try (split; [discriminate|discriminate]); [tauto|].
  rewrite andb_true_iff, unit_eqb_eq, IH. split.
  - intros [-> ->]. reflexivity.
  - intros H. injection H as -> ->. tauto.
Qed.

(** *** Initials *)

Lemma split_not_nil (name : Str) : split name <> [].
Proof.
  destruct name as [|c rest]; cbn [PlayerSelector.split]; [discriminate|].
  destruct (unit_eqb c space); [discriminate|].
  destruct (split rest); discriminate.
Qed.

Lemma split_space (a b : Str) :
  split (a ++ space :: b) = split a ++ split b.
Proof.
  induction a as [|c a IH]; cbn [app PlayerSelector.split].
  - now rewrite unit_eqb_refl.
  - rewrite IH. destruct (unit_eqb c space); [reflexivity|].
    pose proof (split_not_nil a) as Hn.
    destruct (split a) as [|word words]; [contradiction|reflexivity].
Qed.

Lemma split_words (name : Str) :
  Forall (Forall (fun c => unit_eqb c space = false)) (split name).
Proof.
  induction name as [|c rest IH]; cbn [PlayerSelector.split].
  - repeat constructor.
  - destruct (unit_eqb c space) eqn:E; [constructor; [constructor|exact IH]|].
    destruct (split rest) as [|word words]; [repeat constructor; exact E|].
    inversion IH as [|w ws Hw Hws]; subst.
    constructor; [constructor; assumption|assumption].
Qed.

(** X18. [getPlayerInitials] works word by word: the initials of two
    parts joined by a space are the initials of the first followed by
    those of the second; no initial is a space; and a name without a
    space has its first code unit as its initials (none when the name
    is empty). *)
Theorem getPlayerInitials_by_word (first last : Str) :
  getPlayerInitials (first ++ space :: last)
  = getPlayerInitials first ++ getPlayerInitials last
  /\ Forall (fun c => c <> space) (getPlayerInitials first)
  /\ (Forall (fun c => c <> space) first ->
      getPlayerInitials first
      = match first with [] => [] | c :: _ => [c] end).
Proof.
  unfold PlayerSelector.getPlayerInitials, PlayerSelector.join.
  split; [|split].
  - now rewrite split_space, map_app, flat_map_app.
  - apply Forall_forall. intros c Hc. apply in_flat_map in Hc.
    destruct Hc as (o & Ho & Hc). apply in_map_iff in Ho.
    destruct Ho as (word & <- & Hword).
    pose proof (split_words first) as W. rewrite Forall_forall in W.
    specialize (W word Hword).
    destruct word as [|d word]; cbn in Hc; [contradiction|].
    destruct Hc as [<-|[]]. inversion W as [|x xs Hd _]; subst.
    intros ->. rewrite unit_eqb_refl in Hd. discriminate Hd.
  - intros Hfree.
    assert (E : split first = [first]).
    { induction first as [|c rest IH]; [reflexivity|].
      inversion Hfree as [|x xs Hc Hrest]; subst.
      cbn [PlayerSelector.split].
      destruct (unit_eqb c space) eqn:E;
        [apply unit_eqb_eq in E; contradiction|].
      now rewrite (IH Hrest). }
    rewrite E. destruct first; reflexivity.
Qed.

(** *** The search box *)

Lemma startsWith_refl (s : Str) : startsWith s s = true.
Proof.
  induction s as [|c s IH]; cbn [PlayerSelector.startsWith]; [reflexivity|].
  now rewrite unit_eqb_refl, IH.
Qed.

Lemma includes_refl (s : Str) : includes s s = true.
Proof.
  destruct s; cbn [PlayerSelector.includes]; now rewrite startsWith_refl.
Qed.

Lemma includes_empty (s : Str) : includes s [] = true.
Proof. destruct s; reflexivity. Qed.

Section Search.

Variable toLowerCase : list Unit -> list Unit.

Local Abbreviation filteredPlayers :=
  (PlayerSelector.filteredPlayers unit_eqb toLowerCase).

(** X19. The search box of the selector: the list shown holds listed
    players only and is no longer than the list, an empty search term shows every player (given that
    lower-casing the empty string gives the empty string), and searching
    for the full name of a listed player shows that player. *)
Theorem filteredPlayers_shows (players : list Str) (searchTerm : Str) :
  (forall player, In player (filteredPlayers players searchTerm) -> In player players)
  /\ (List.length (filteredPlayers players searchTerm) <= List.length players)%nat
  /\ (toLowerCase [] = [] -> filteredPlayers players [] = players)
  /\ (forall player, In player players ->
        In player (filteredPlayers players player)).
Proof.
  unfold PlayerSelector.filteredPlayers. split; [|split; [|split]].
  - intros player H. apply filter_In in H. tauto.
  - apply filter_length_le.
  - intros E. rewrite E. induction players as [|p ps IH]; [reflexivity|].
    cbn [filter]. now rewrite includes_empty, IH.
  - intros player H. apply filter_In. split; [exact H|apply includes_refl].
Qed.

End Search.

(** *** The colour of a card *)

Lemma indexOf_spec (players : list Str) (player : Str) :
  (In player players ->
   (0 <= indexOf players player < Z.of_nat (List.length players))%Z)
  /\ (~ In player players -> indexOf players player = (-1)%Z).
Proof.
  induction players as [|first rest [IHin IHout]];
    cbn [PlayerSelector.indexOf List.length In].
  - split; [contradiction|reflexivity].
  - rewrite Nat2Z.inj_succ.
    destruct (str_eqb first player) eqn:E.
    + apply str_eqb_eq in E. split; [lia|]. intros H. exfalso. apply H. now left.
    + assert (Hne : first <> player).
      { intros K. apply str_eqb_eq in K. congruence. }
      split.
      * intros [K|K]; [contradiction|]. specialize (IHin K).
        destruct (indexOf rest player <? 0)%Z eqn:L; [apply Z.ltb_lt in L|]; lia.
      * intros H. rewrite IHout by tauto. reflexivity.
Qed.

(** X20. [getPlayerTeamColor] gives one of the eight colours of its
    table to every listed player, and [undefined] to a player who is
    not in the list (where [indexOf] is -1). *)
Theorem getPlayerTeamColor_defined (players : list Str) (player : Str) :
  (In player players ->
   exists c, getPlayerTeamColor players player = Some c
             /\ In c PlayerSelector.colors)
  /\ (~ In player players -> getPlayerTeamColor players player = None).
Proof.
  destruct (indexOf_spec players player) as [Hin Hout].
  unfold PlayerSelector.getPlayerTeamColor, PlayerSelector.at_index.
  change (Z.of_nat (List.length PlayerSelector.colors)) with 8%Z.
  split.
  - intros H. specialize (Hin H).
    pose proof (Z.rem_bound_pos (indexOf players player) 8 ltac:(lia) ltac:(lia))
      as [R0 R1].
    replace (Z.rem (indexOf players player) 8 <? 0)%Z with false
      by (symmetry; apply Z.ltb_ge; lia).
    destruct (nth_error PlayerSelector.colors
                (Z.to_nat (Z.rem (indexOf players player) 8))) as [c|] eqn:E.
    + exists c. split; [reflexivity|]. eapply nth_error_In, E.
    + apply nth_error_None in E.
      change (List.length PlayerSelector.colors) with 8%nat in E. lia.
  - intros H. rewrite (Hout H). reflexivity.
Qed.

End Selector.

Lemma getPlayerInitials_by_word_witness :
  PlayerSelector.getPlayerInitials Ascii.eqb " "%char
    (list_ascii_of_string "LeBron James")
  = list_ascii_of_string "LJ"
  /\ PlayerSelector.getPlayerInitials Ascii.eqb " "%char
       (list_ascii_of_string "Giannis")
     = list_ascii_of_string "G".
Proof.
  destruct (getPlayerInitials_by_word Ascii.ascii Ascii.eqb " "%char Ascii.eqb_eq
              (list_ascii_of_string "LeBron") (list_ascii_of_string "James"))
    as (H & _ & _).
  destruct (getPlayerInitials_by_word Ascii.ascii Ascii.eqb " "%char Ascii.eqb_eq
              (list_ascii_of_string "Giannis") []) as (_ & _ & G).
  split.
  - exact H.
  - apply G. repeat constructor; discriminate.
Defined.

Lemma filteredPlayers_shows_witness :
  PlayerSelector.filteredPlayers Ascii.eqb (fun s => s)
    [list_ascii_of_string "LeBron James"; list_ascii_of_string "Stephen Curry"] []
  = [list_ascii_of_string "LeBron James"; list_ascii_of_string "Stephen Curry"]
  /\ In (list_ascii_of_string "Stephen Curry")
       (PlayerSelector.filteredPlayers Ascii.eqb (fun s => s)
          [list_ascii_of_string "LeBron James"; list_ascii_of_string "Stephen Curry"]
          (list_ascii_of_string "Stephen Curry")).
Proof.
  destruct (filteredPlayers_shows Ascii.ascii Ascii.eqb Ascii.eqb_eq (fun s => s)
              [list_ascii_of_string "LeBron James";
               list_ascii_of_string "Stephen Curry"] [])
    as (_ & _ & E & _).
  destruct (filteredPlayers_shows Ascii.ascii Ascii.eqb Ascii.eqb_eq (fun s => s)
              [list_ascii_of_string "LeBron James";
               list_ascii_of_string "Stephen Curry"]
              (list_ascii_of_string "Stephen Curry"))
    as (_ & _ & _ & S).
  split.
  - apply E. reflexivity.
  - apply S. right. left. reflexivity.
Defined.

Lemma getPlayerTeamColor_defined_witness :
  (exists c,
     PlayerSelector.getPlayerTeamColor Ascii.eqb
       [list_ascii_of_string "LeBron James"; list_ascii_of_string "Stephen Curry"]
       (list_ascii_of_string "Stephen Curry") = Some c
     /\ In c PlayerSelector.colors)
  /\ PlayerSelector.getPlayerTeamColor Ascii.eqb
       [list_ascii_of_string "LeBron James"; list_ascii_of_string "Stephen Curry"]
       (list_ascii_of_string "Kevin Durant") = None.
Proof.
  destruct (getPlayerTeamColor_defined Ascii.ascii Ascii.eqb Ascii.eqb_eq
              [list_ascii_of_string "LeBron James";
               list_ascii_of_string "Stephen Curry"]
              (list_ascii_of_string "Stephen Curry")) as [Hin _].
  destruct (getPlayerTeamColor_defined Ascii.ascii Ascii.eqb Ascii.eqb_eq
              [list_ascii_of_string "LeBron James";
               list_ascii_of_string "Stephen Curry"]
              (list_ascii_of_string "Kevin Durant")) as [_ Hout].
  split.
  - apply Hin. right. left. reflexivity.
  - apply Hout. intros [K|[K|[]]]; discriminate K.
Defined.
(** ** From a click to the panel *)

(** X21. From a click to the panel, once the request has settled.
    Without a player nothing is sent: the prediction, the marker and
    the parent are untouched, and the panel shows the message to select
    a player (the spinner if a request was loading).  With a player the
    marker is at the click and loading is over; a response with an ok
    status and a body shows the prediction and reports the outcome,
    the player and the zone to [onPrediction] when it is given; any
    other outcome (rejected fetch, error status, unreadable body) shows
    the failure message, keeps the earlier prediction and reports
    nothing. *)
Theorem click_to_panel {S : Type}
    (selectedPlayer : option string) (width height : number)
    (onPrediction : option (bool -> string -> string -> S -> S))
    (clickX clickY : number)
    (fetched : option (ApiClient.Response ApiClient.ShotPrediction))
    (st : PredictionFlow.State) (parent : S) :
  let after :=
    PredictionFlow.handleCourtClick_settled selectedPlayer width height
      onPrediction clickX clickY fetched st parent in
  let st' := fst after in
  let panel :=
    PredictionDisplay.PredictionDisplay st'.(PredictionFlow.prediction)
      st'.(PredictionFlow.loading) st'.(PredictionFlow.error) in
  match handleCourtClick selectedPlayer width height clickX clickY with
  | inl _ =>
      (selectedPlayer = None \/ selectedPlayer = Some EmptyString)
      /\ snd after = parent
      /\ st'.(PredictionFlow.prediction) = st.(PredictionFlow.prediction)
      /\ st'.(PredictionFlow.shotLocation) = st.(PredictionFlow.shotLocation)
      /\ panel = if st.(PredictionFlow.loading)
                 then PredictionDisplay.Calculating
                 else PredictionDisplay.PredictionFailed
                        "Please select a player first"
  | inr shotData =>
      selectedPlayer = Some shotData.(PLAYER_NAME)
      /\ st'.(PredictionFlow.loading) = false
      /\ st'.(PredictionFlow.shotLocation) = PredictionFlow.located shotData
      /\ match fetched with
         | Some {| ApiClient.ok := true; ApiClient.json := Some result |} =>
             panel = PredictionDisplay.Result result
             /\ snd after
                = match onPrediction with
                  | Some callback =>
                      callback result.(ApiClient.shot_made)
                        shotData.(PLAYER_NAME) shotData.(SHOT_ZONE_BASIC) parent
                  | None => parent
                  end
         | _ =>
             panel = PredictionDisplay.PredictionFailed
                       "Failed to predict shot. Please try again."
             /\ st'.(PredictionFlow.prediction) = st.(PredictionFlow.prediction)
             /\ snd after = parent
         end
  end.
Proof.
  cbv zeta. unfold PredictionFlow.handleCourtClick_settled.
  destruct (handleCourtClick selectedPlayer width height clickX clickY)
    as [message|shotData] eqn:E.
  - cbn [fst snd PredictionFlow.prediction PredictionFlow.loading
         PredictionFlow.error PredictionFlow.shotLocation].
    unfold handleCourtClick in E.
    destruct selectedPlayer as [[|c player]|];
      try (exfalso; discriminate E);
      apply (f_equal (fun r => match r with inl m => m | inr _ => message end)) in E;
      cbv beta iota in E; subst message;
      (split; [tauto|]); repeat split;
      unfold PredictionDisplay.PredictionDisplay;
      destruct st.(PredictionFlow.loading); reflexivity.
  - assert (Hp : selectedPlayer = Some shotData.(PLAYER_NAME)).
    { unfold handleCourtClick in E.
      destruct selectedPlayer as [[|c player]|]; try discriminate E.
      apply (f_equal (fun r => match r with
                               | inr s => s.(PLAYER_NAME)
                               | inl _ => EmptyString
                               end)) in E.
      cbv beta iota in E. cbn [PLAYER_NAME] in E. now rewrite <- E. }
    split; [exact Hp|].
    unfold ApiClient.predictShot, ApiClient.request.
    destruct fetched as [[[] status [result|]]|];
      cbn [negb ApiClient.ok ApiClient.json ApiClient.status fst snd
           PredictionFlow.prediction PredictionFlow.loading
           PredictionFlow.error PredictionFlow.shotLocation];
      repeat split.
Qed.
(** ** Loading the players *)

(** X22. Loading the players from the initial state always ends
    with [loading] false and untouched statistics.  The selected player
    is the first of the list now shown, and no one is selected only if
    that list is empty.  A response with an ok status and a body shows
    its players without an error; any other outcome shows the eight
    offline players, selects LeBron James and sets the offline
    message. *)
Theorem fetchPlayers_selects_a_listed_player
    (fetched : option (ApiClient.Response ApiClient.PlayersResponse)) :
  let st := AppComponent.fetchPlayers fetched AppComponent.initialState in
  st.(AppComponent.loading) = false
  /\ match st.(AppComponent.selectedPlayer) with
     | Some player =>
         exists first rest,
           st.(AppComponent.players) = first :: rest
           /\ player = first.(ApiClient.name)
           /\ In player (AppComponent.playerNames st)
     | None => st.(AppComponent.players) = []
     end
  /\ match fetched with
     | Some {| ApiClient.ok := true; ApiClient.json := Some response |} =>
         st.(AppComponent.players) = response.(ApiClient.players)
         /\ st.(AppComponent.error) = None
     | _ =>
         st.(AppComponent.players) = AppComponent.offlinePlayers
         /\ st.(AppComponent.selectedPlayer) = Some "LeBron James"%string
         /\ st.(AppComponent.error)
            = Some "Failed to fetch players - using offline data"%string
     end
  /\ st.(AppComponent.sessionStats) = AppComponent.initialStats.
Proof.
  cbv zeta. unfold AppComponent.fetchPlayers, ApiClient.getPlayers, ApiClient.request.
  destruct fetched as [[[] status [response|]]|];
    cbn [negb ApiClient.ok ApiClient.json ApiClient.status];
    cbn [AppComponent.loading AppComponent.selectedPlayer AppComponent.players
         AppComponent.error AppComponent.sessionStats AppComponent.initialState];
    (split; [reflexivity|]);
    (split; [|split; [|reflexivity]]);
    try (repeat split; fail);
    try (eexists _, _; split; [reflexivity|]; split; [reflexivity|];
         left; reflexivity).
  destruct response.(ApiClient.players) as [|first rest] eqn:E; [reflexivity|].
  exists first, rest. split; [reflexivity|]. split; [reflexivity|].
  unfold AppComponent.playerNames. cbn [AppComponent.players map]. now left.
Qed.
(** ** The low end of the colour scale *)

(** Of two canonical mantissas the one of the smaller exponent is the
    smaller number. *)
Lemma canonical_exponent_order (s1 s2 : bool) (m1 m2 : positive) (e1 e2 : Z) :
  wf (S754_finite s1 m1 e1) -> wf (S754_finite s2 m2 e2) ->
  (e1 < e2)%Z ->
  (Z.pos m1 < Z.pos m2 * 2 ^ (e2 - e1))%Z.
Proof.
  intros W1 W2 L.
  destruct (wf_finite _ _ _ W1) as [C1 _].
  destruct (wf_finite _ _ _ W2) as [C2 _].
  destruct (digits2_bounds m1) as [_ H1].
  destruct (digits2_bounds m2) as [H2 _].
  unfold fexp, emin, prec, emax in C1, C2.
  set (d1 := Z.pos (digits2_pos m1)) in *.
  set (d2 := Z.pos (digits2_pos m2)) in *.
  assert (D1 : (d1 <= 53)%Z) by lia.
  assert (D2 : (d2 = 53)%Z) by lia.
  assert (K1 : (2 ^ d1 <= 2 ^ 53)%Z) by (apply Z.pow_le_mono_r; lia).
  rewrite D2 in H2. change (2 ^ (53 - 1))%Z with (2 ^ 52)%Z in H2.
  assert (K2 : (2 ^ 1 <= 2 ^ (e2 - e1))%Z) by (apply Z.pow_le_mono_r; lia).
  change (2 ^ 1)%Z with 2%Z in K2. change (2 ^ 53)%Z with (2 ^ 52 * 2)%Z in K1.
  nia.
Qed.

(** The aligned mantissas of two canonical doubles, in the order of
    [SFcompare]. *)
Lemma aligned_order (m1 m2 : positive) (e1 e2 : Z) (s1 s2 : bool) :
  wf (S754_finite s1 m1 e1) -> wf (S754_finite s2 m2 e2) ->
  let ez := Z.min e1 e2 in
  let c := match (e1 ?= e2)%Z with
           | Lt => Lt | Gt => Gt | Eq => Pos.compare_cont Eq m1 m2
           end in
  (Z.pos (fst (shl_align m1 e1 ez)) ?= Z.pos (fst (shl_align m2 e2 ez)))%Z = c.
Proof.
  intros W1 W2 ez c. subst c.
  destruct (shl_align_value m1 e1 ez ltac:(subst ez; lia)) as [V1 _].
  destruct (shl_align_value m2 e2 ez ltac:(subst ez; lia)) as [V2 _].
  rewrite V1, V2. subst ez.
  destruct (Z.compare_spec e1 e2) as [E|L|G].
  - subst e2. rewrite Z.min_id, Z.sub_diag. cbn [Z.pow].
    rewrite !Z.mul_1_r. reflexivity.
  - rewrite Z.min_l by lia. rewrite Z.sub_diag. cbn [Z.pow]. rewrite Z.mul_1_r.
    apply Z.compare_lt_iff. now apply (canonical_exponent_order s1 s2).
  - rewrite Z.min_r by lia. rewrite Z.sub_diag. cbn [Z.pow]. rewrite Z.mul_1_r.
    apply Z.compare_gt_iff. now apply (canonical_exponent_order s2 s1).
Qed.

(** A double that is zero or below. *)
Lemma normalize_not_positive (m e : Z) :
  (m <= 0)%Z ->
  binary_normalize prec emax m e false = S754_zero false
  \/ has_sign true (binary_normalize prec emax m e false) = true.
Proof.
  intros H. destruct m as [|p|p]; [left; reflexivity|lia|right].
  cbn [binary_normalize]. apply binary_round_sign.
Qed.

(** The difference of two canonical doubles in order is zero or
    negative: subtraction never turns the order round. *)
Lemma fsub_ordered (a b : number) :
  wf a -> wf b -> is_finite b = true -> fle a b = true ->
  (exists s, fsub a b = S754_zero s) \/ has_sign true (fsub a b) = true.
Proof.
  intros Wa Wb Fb H. unfold fle, SFleb in H.
  destruct a as [sa|sa| |sa ma ea], b as [sb|sb| |sb mb eb];
    try discriminate Fb; try discriminate H.
  - left. destruct sa, sb; eexists; reflexivity.
  - destruct sb; [discriminate H|]. right. reflexivity.
  - destruct sa; [|discriminate H]. right. reflexivity.
  - destruct sa; [|discriminate H]. right. reflexivity.
  - destruct sa; [|destruct sb; discriminate H]. right. reflexivity.
  - unfold fsub, SFsub.
    pose proof (aligned_order ma mb ea eb sa sb Wa Wb) as A.
    pose proof (aligned_order mb ma eb ea sb sa Wb Wa) as B.
    cbv zeta in A, B. rewrite (Z.min_comm eb ea) in B.
    set (ez := Z.min ea eb) in *.
    set (Pa := Z.pos (fst (shl_align ma ea ez))) in *.
    set (Pb := Z.pos (fst (shl_align mb eb ez))) in *.
    assert (Hpa : (0 < Pa)%Z) by (subst Pa; lia).
    assert (Hpb : (0 < Pb)%Z) by (subst Pb; lia).
    assert (D : (cond_Zopp sa Pa - cond_Zopp sb Pb <= 0)%Z).
    { cbn [SFcompare] in H.
      destruct sa, sb; cbn [cond_Zopp]; try lia; try discriminate H.
      - (* both negative *)
        assert (C : (Pb ?= Pa)%Z <> Gt).
        { rewrite B. rewrite (Z.compare_antisym eb ea) in H.
          rewrite (Pos.compare_cont_antisym ma mb Eq) in H.
          destruct (eb ?= ea)%Z; cbn [CompOpp] in H |- *;
            try discriminate; try (exfalso; discriminate H).
          cbn [CompOpp] in H.
          destruct (Pos.compare_cont Eq mb ma); try discriminate;
            exfalso; discriminate H. }
        destruct (Z.compare_spec Pb Pa); try lia. congruence.
      - (* both positive *)
        assert (C : (Pa ?= Pb)%Z <> Gt).
        { rewrite A. destruct (ea ?= eb)%Z; try discriminate;
            try (exfalso; discriminate H).
          destruct (Pos.compare_cont Eq ma mb); try discriminate;
            exfalso; discriminate H. }
        destruct (Z.compare_spec Pa Pb); try lia. congruence. }
    destruct (normalize_not_positive _ ez D) as [Z0|N]; [left|right].
    + eexists. exact Z0.
    + exact N.
Qed.

Lemma clamp_not_positive (t : number) :
  (exists s, t = S754_zero s) \/ has_sign true t = true ->
  max (int 0) (min (int 1) t) = S754_zero false.
Proof.
  change (int 0 : number) with (S754_zero false).
  change (int 1 : number) with (S754_finite false 4503599627370496 (-52)).
  intros [[s ->]|H].
  - destruct s; reflexivity.
  - destruct t as [[]|[]| |[] m e]; try discriminate H; reflexivity.
Qed.

Lemma scaled_not_positive (d k : number) :
  positive_finite k = true ->
  (exists s, d = S754_zero s) \/ has_sign true d = true ->
  (exists s, fmul d k = S754_zero s) \/ has_sign true (fmul d k) = true.
Proof.
  destruct k as [| | |[] mk ek]; try discriminate. intros _ [[s ->]|H].
  - left. eexists. reflexivity.
  - destruct d as [[]|[]| |[] m e]; try discriminate H.
    + left. eexists. reflexivity.
    + right. reflexivity.
    + right. unfold fmul, SFmul. cbn [xorb]. apply round_aux_sign. lia.
Qed.

Lemma sequentialPosition_low_end (x0 x1 w : number) :
  wf w -> wf x0 -> is_finite x0 = true ->
  positive_finite (D3.k10 x0 x1) = true ->
  fle w x0 = true ->
  D3.sequentialPosition x0 x1 w = S754_zero false.
Proof.
  intros Ww Wx Fx Hk Hle. unfold D3.sequentialPosition.
  cbn [eqb sub mul Math_max Math_min arith].
  assert (E : feq (D3.k10 x0 x1) (int 0) = false).
  { destruct (D3.k10 x0 x1) as [| | |[] mk ek]; try discriminate Hk. reflexivity. }
  rewrite E. apply clamp_not_positive, scaled_not_positive; [exact Hk|].
  now apply fsub_ordered.
Qed.

(** X23. On binary64 the low end of the colour scale saturates
    exactly: every probability at or below [avg - band] is sent to
    position 0 of the interpolator, so all such points take the colour
    of [avg - band] itself (for a finite domain start and a positive
    finite span). *)
Theorem colorScale_saturates_below
    (interpolateRdYlGn : number -> string) (props : HeatmapProps number)
    (p1 p2 : HeatmapPoint number) :
  let x0 := fsub (avg props) (band props) in
  let x1 := fadd (avg props) (band props) in
  wf x0 -> is_finite x0 = true -> positive_finite (D3.k10 x0 x1) = true ->
  wf (prob props p1) -> wf (prob props p2) ->
  fle (prob props p1) x0 = true -> fle (prob props p2) x0 = true ->
  D3.sequentialPosition x0 x1 (prob props p1) = S754_zero false
  /\ colorScale interpolateRdYlGn props (prob props p1)
     = Some (interpolateRdYlGn (S754_zero false))
  /\ colorScale interpolateRdYlGn props (prob props p1)
     = colorScale interpolateRdYlGn props (prob props p2)
  /\ colorScale interpolateRdYlGn props x0
     = Some (interpolateRdYlGn (S754_zero false)).
Proof.
  intros x0 x1 Wx Fx Hk W1 W2 H1 H2.
  pose proof (sequentialPosition_low_end x0 x1 _ W1 Wx Fx Hk H1) as S1.
  pose proof (sequentialPosition_low_end x0 x1 _ W2 Wx Fx Hk H2) as S2.
  assert (Nx : is_nan x0 = false) by (destruct x0; try discriminate Fx; reflexivity).
  pose proof (sequentialPosition_low_end x0 x1 x0 Wx Wx Fx Hk (fle_refl x0 Nx)) as S0.
  destruct (fle_is_number _ _ H1) as [N1 _].
  destruct (fle_is_number _ _ H2) as [N2 _].
  unfold colorScale, D3.scaleSequential.
  cbn [isNaN sub add arith]. fold x0 x1.
  rewrite N1, N2, Nx, S1, S2, S0.
  repeat split; reflexivity.
Qed.

Lemma colorScale_saturates_below_witness :
  let props : HeatmapProps number := App.heatmapProps [] in
  colorScale App.green props (prob props (App.weighted (dec 25 100)))
  = colorScale App.green props (prob props (App.weighted (dec 1 10)))
  /\ D3.sequentialPosition (fsub (avg props) (band props))
       (fadd (avg props) (band props)) (dec 25 100) = S754_zero false.
Proof.
  intros props.
  assert (H1 : wf (fsub (avg props) (band props))) by (vm_compute; reflexivity).
  assert (H2 : is_finite (fsub (avg props) (band props)) = true)
    by (vm_compute; reflexivity).
  assert (H3 : positive_finite
                 (D3.k10 (fsub (avg props) (band props))
                    (fadd (avg props) (band props))) = true)
    by (vm_compute; reflexivity).
  assert (H4 : wf (prob props (App.weighted (dec 25 100))))
    by (vm_compute; reflexivity).
  assert (H5 : wf (prob props (App.weighted (dec 1 10))))
    by (vm_compute; reflexivity).
  assert (H6 : fle (prob props (App.weighted (dec 25 100)))
                 (fsub (avg props) (band props)) = true)
    by (vm_compute; reflexivity).
  assert (H7 : fle (prob props (App.weighted (dec 1 10)))
                 (fsub (avg props) (band props)) = true)
    by (vm_compute; reflexivity).
  destruct (colorScale_saturates_below App.green props
              (App.weighted (dec 25 100)) (App.weighted (dec 1 10))
              H1 H2 H3 H4 H5 H6 H7) as (S & _ & E & _).
  split; [exact E|exact S].
Defined.
(** ** The drawing of the court, read without rounding error *)

(** ** Order kept from pixels to analytics coordinates *)



(** ** The probability ring, read without rounding error *)


